(** * backend/main.py: one-shot and streaming transcription handlers

    A shallow embedding of [src/backend/main.py]: the upload handler
    [transcribe_audio] and the websocket handler [websocket_endpoint],
    together with the parts of the Python runtime they lean on (str and
    bytes operations, numpy's int16 view of a buffer, the RIFF container
    written by the [wave] module, a file system with temporary files).

    External collaborators (ffmpeg, the Whisper model, the peer of the
    websocket, the disk) answer through a script supplied with each request
    or chunk, so that every theorem quantifies over what they may do. *)

From Stdlib Require Import ZArith NArith List Lia Bool Ascii String.
From Stdlib Require Import Strings.Byte.
From stdpp Require Import gmap list.
Import ListNotations.

Local Open Scope list_scope.

(** ** Python values *)

(** A Python [str] is a sequence of code points. *)
Definition str : Type := list N.

Definition of_ascii (s : String.string) : str :=
  map N_of_ascii (list_ascii_of_string s).
Arguments of_ascii s%_string.

(** [bytes] objects. *)
Definition bytes : Type := list byte.

Section Str.

(** [str.isspace] on one code point: the code points CPython lists as
    whitespace ([_PyUnicode_IsWhitespace]). *)
Definition py_isspace (c : N) : bool :=
  ((0x09 <=? c) && (c <=? 0x0D))%N
  || ((0x1C <=? c) && (c <=? 0x20))%N
  || (c =? 0x85)%N || (c =? 0xA0)%N || (c =? 0x1680)%N
  || ((0x2000 <=? c) && (c <=? 0x200A))%N
  || (c =? 0x2028)%N || (c =? 0x2029)%N || (c =? 0x202F)%N
  || (c =? 0x205F)%N || (c =? 0x3000)%N.

Fixpoint lstrip (s : str) : str :=
  match s with
  | c :: rest => if py_isspace c then lstrip rest else s
  | [] => []
  end.

Definition rstrip (s : str) : str := rev (lstrip (rev s)).

(** [s.strip()] *)
Definition strip (s : str) : str := rstrip (lstrip s).

(** Truth value of a str: non-empty. *)
Definition truthy (s : str) : bool :=
  match s with [] => false | _ :: _ => true end.

(** [sep.join(xs)] *)
Fixpoint join (sep : str) (xs : list str) : str :=
  match xs with
  | [] => []
  | x :: rest =>
      match rest with
      | [] => x
      | _ :: _ => x ++ sep ++ join sep rest
      end
  end.

Fixpoint startswith (prefix s : str) : bool :=
  match prefix, s with
  | [], _ => true
  | p :: prefix', c :: s' => (p =? c)%N && startswith prefix' s'
  | _ :: _, [] => false
  end.

(** [needle in hay] *)
Fixpoint contains (needle hay : str) : bool :=
  startswith needle hay
  || match hay with
     | [] => false
     | _ :: hay' => contains needle hay'
     end.

(** [s.replace(old, new)]: every non-overlapping occurrence, scanning
    from the left.  [skip] counts the characters of a match still to be
    dropped. *)
Fixpoint replace_from (old new : str) (skip : nat) (s : str) : str :=
  match s with
  | [] => []
  | c :: rest =>
      match skip with
      | S k => replace_from old new k rest
      | O =>
          if startswith old s
          then new ++ replace_from old new (length old - 1) rest
          else c :: replace_from old new 0 rest
      end
  end.

Definition replace (old new s : str) : str :=
  match old with
  | [] => new ++ flat_map (fun c => c :: new) s
  | _ :: _ => replace_from old new 0 s
  end.

End Str.

(** ** Bytes, 16-bit samples and the RIFF container *)

Definition byte_of_N (n : N) : byte :=
  match Byte.of_N (n mod 256) with
  | Some b => b
  | None => x00
  end.

(** [struct.pack('<H', n)] and [struct.pack('<L', n)] for values in range. *)
Definition u16le (n : N) : bytes :=
  [byte_of_N n; byte_of_N (n / 256)].

Definition u32le (n : N) : bytes :=
  [byte_of_N n; byte_of_N (n / 256); byte_of_N (n / 65536);
   byte_of_N (n / 16777216)].

(** One little-endian signed 16-bit sample (the host is little-endian). *)
Definition int16_of_le (lo hi : byte) : Z :=
  let u := (Z.of_N (Byte.to_N lo) + 256 * Z.of_N (Byte.to_N hi))%Z in
  if (u <? 32768)%Z then u else (u - 65536)%Z.

Definition int16_to_le (s : Z) : bytes :=
  let u := Z.to_N (s mod 65536) in
  [byte_of_N u; byte_of_N (u / 256)].

Fixpoint samples_of (b : bytes) : list Z :=
  match b with
  | lo :: hi :: rest => int16_of_le lo hi :: samples_of rest
  | _ => []
  end.

(** Python exceptions, as far as the handlers tell them apart: the
    websocket's disconnect signal and every other [Exception], each with
    its [str(e)]. *)
Inductive exn : Type :=
| WebSocketDisconnect
| RuntimeError (msg : str)
| ValueError (msg : str)
| OSError (msg : str)
| OtherException (msg : str).

Definition exn_str (e : exn) : str :=
  match e with
  | WebSocketDisconnect => []
  | RuntimeError msg | ValueError msg | OSError msg | OtherException msg => msg
  end.

Inductive result (A : Type) : Type :=
| Ok (a : A)
| Err (e : exn).
Arguments Ok {A} a.
Arguments Err {A} e.

(** [np.frombuffer(data, dtype=np.int16)]: a buffer whose size is not a
    multiple of the element size is refused with [ValueError]. *)
Definition frombuffer_int16 (data : bytes) : result (list Z) :=
  if (length data mod 2 =? 0)%nat
  then Ok (samples_of data)
  else Err (ValueError (of_ascii "buffer size must be a multiple of element size")).

(** [ndarray.tobytes()] of an int16 array. *)
Definition tobytes (a : list Z) : bytes := flat_map int16_to_le a.

(** The [wave] module: a 44-byte RIFF/WAVE header and then the frames. *)
Definition WAVE_FORMAT_PCM : N := 1.

Definition tag (s : String.string) : bytes := list_byte_of_string s.
Arguments tag s%_string.

Definition wave_header (nchannels sampwidth framerate datalength : N) : bytes :=
  tag "RIFF" ++ u32le (36 + datalength) ++ tag "WAVE" ++ tag "fmt "
  ++ u32le 16 ++ u16le WAVE_FORMAT_PCM ++ u16le nchannels ++ u32le framerate
  ++ u32le (nchannels * framerate * sampwidth)
  ++ u16le (nchannels * sampwidth) ++ u16le (sampwidth * 8)
  ++ tag "data" ++ u32le datalength.

(** What is on disk once a [Wave_write] with these parameters has written
    [frames] and been closed.  The two length fields hold 32 bits: for
    frames that do not fit, [wave] raises instead of writing them, which in
    the handler below is one of the ways the write of the container can
    fail. *)
Definition wave_file (nchannels sampwidth framerate : N) (frames : bytes) : bytes :=
  wave_header nchannels sampwidth framerate (N.of_nat (length frames)) ++ frames.

(** The frames of a container: what follows its header. *)
Definition wave_frames (file : bytes) : bytes := skipn 44 file.

(** ** The Frame Assembler (lines 100-109 of [websocket_endpoint]) *)

(** [if len(data) % 2 != 0: data += b'\0'] *)
Definition pad_even (data : bytes) : bytes :=
  if negb (length data mod 2 =? 0)%nat then data ++ [x00] else data.

(** The bytes handed to [wf.writeframes]. *)
Definition frame_payload (data : bytes) : result bytes :=
  match frombuffer_int16 (pad_even data) with
  | Ok audio_data => Ok (tobytes audio_data)
  | Err e => Err e
  end.

(** The assembled artifact. *)
Definition frame_assemble (data : bytes) : result bytes :=
  match frame_payload data with
  | Ok frames => Ok (wave_file 1 2 16000 frames)
  | Err e => Err e
  end.

(** ** The Quality Gate (line 111) *)

(** [os.path.getsize(wav_file) < 1000]: the artifact is skipped. *)
Definition too_small (size : nat) : bool := (size <? 1000)%nat.

(** The gate accepts what it does not skip. *)
Definition quality_gate (size : nat) : bool := negb (too_small size).

(** ** The world the handlers act on *)

Definition path : Type := str.

(** What [print] writes, one constructor per call site. *)
Inductive log_entry : Type :=
| LogSaving (p : path)
| LogSaveFailed
| LogFfmpegStart (src dst : path)
| LogFfmpegFailed
| LogPrint (s : str)
| LogWhisperStart
| LogResult (text : str)
| LogError (msg : str)
| LogWarnRemove (p : path)
| LogWsConnected
| LogWsReceived (n : nat)
| LogWsTooSmall
| LogWsResult (text : str)
| LogWsProcessError (e : exn)
| LogWsWarnRemove (p : path)
| LogWsDisconnected
| LogWsException (e : exn).

Record world : Type := mkWorld {
  fs : gmap (list N) (list byte);     (* files of the working directory *)
  log : list log_entry;               (* standard output, oldest first *)
  sent : list str;                    (* texts handed to send_text, in order *)
  delivered : list str;               (* those of them that got through to the peer *)
  ffmpeg_calls : list (path * path);  (* transcoder invocations: source, destination *)
  whisper_calls : list path           (* model invocations *)
}.

Definition set_fs (f : gmap (list N) (list byte)) (w : world) : world :=
  mkWorld f (log w) (sent w) (delivered w) (ffmpeg_calls w) (whisper_calls w).

(** ** Control flow: values, exceptions, and early exits

    [Exit r] is a [return r] inside a handler, or a [continue] inside the
    body of the receive loop. *)
Inductive ctl (R A : Type) : Type :=
| Val (a : A)
| Raise (e : exn)
| Exit (r : R).
Arguments Val {R A} a.
Arguments Raise {R A} e.
Arguments Exit {R A} r.

Definition M (R A : Type) : Type := world -> ctl R A * world.

Section Monad.
Context {R : Type}.

Definition ret {A} (a : A) : M R A := fun w => (Val a, w).

Definition bind {A B} (m : M R A) (k : A -> M R B) : M R B :=
  fun w =>
    match m w with
    | (Val a, w1) => k a w1
    | (Raise e, w1) => (Raise e, w1)
    | (Exit r, w1) => (Exit r, w1)
    end.

Definition raise {A} (e : exn) : M R A := fun w => (Raise e, w).

Definition exit_ {A} (r : R) : M R A := fun w => (Exit r, w).

Definition lift {A} (r : result A) : M R A :=
  match r with
  | Ok a => ret a
  | Err e => raise e
  end.

(** [try: body  except Exception as e: handler e] (also the bare
    [except:]): every exception of [exn] is an [Exception]. *)
Definition try_except {A} (body : M R A) (handler : exn -> M R A) : M R A :=
  fun w =>
    match body w with
    | (Raise e, w1) => handler e w1
    | other => other
    end.

(** [try: body  finally: fin]: [fin] runs on every way out of [body];
    the outcome of [body] stands unless [fin] itself raises or exits. *)
Definition try_finally {A} (body : M R A) (fin : M R unit) : M R A :=
  fun w =>
    match body w with
    | (c, w1) =>
        match fin w1 with
        | (Val _, w2) => (c, w2)
        | (Raise e, w2) => (Raise e, w2)
        | (Exit r, w2) => (Exit r, w2)
        end
    end.

Definition when (b : bool) (m : M R unit) : M R unit :=
  if b then m else ret tt.

Fixpoint for_each {X} (xs : list X) (f : X -> M R unit) : M R unit :=
  match xs with
  | [] => ret tt
  | x :: rest => bind (f x) (fun _ => for_each rest f)
  end.

Definition print (e : log_entry) : M R unit :=
  fun w => (Val tt, mkWorld (fs w) (log w ++ [e]) (sent w) (delivered w)
                            (ffmpeg_calls w) (whisper_calls w)).
End Monad.

Declare Scope py_scope.
Delimit Scope py_scope with py.
Notation "'do' x <- m ; k" := (bind m (fun x => k))
  (at level 10, x name, m at level 100, k at level 200) : py_scope.
Notation "m >> k" := (bind m (fun _ => k))
  (at level 90, right associativity) : py_scope.

Local Open Scope py_scope.

(** ** The collaborators *)

(** How the disk answers [with open(p, "wb") as f: f.write(content)]. *)
Inductive write_outcome : Type :=
| Written                                   (* the file holds [content] *)
| Vanished                                  (* written, then gone from the directory *)
| WriteFailed (e : exn) (left : option bytes). (* raised; [left] is what it created, if anything *)

(** How [subprocess.run([ffmpeg, ...], capture_output=True, text=True)]
    answers: it raises (no such executable), or the process completes with
    an exit status, its stderr, and the destination file it wrote, if any. *)
Inductive run_outcome : Type :=
| RunRaised (e : exn)
| Completed (returncode : Z) (stderr : str) (output : option bytes).

Section Collaborators.
Context {R : Type}.

Definition write_file (p : path) (content : bytes) (o : write_outcome)
  : M R unit :=
  fun w =>
    match o with
    | Written => (Val tt, set_fs (<[p := content]> (fs w)) w)
    | Vanished => (Val tt, set_fs (delete p (fs w)) w)
    | WriteFailed e (Some b) => (Raise e, set_fs (<[p := b]> (fs w)) w)
    | WriteFailed e None => (Raise e, w)
    end.

(** The text of the [FileNotFoundError] and of the [PermissionError] the
    [os] module raises for a path ([repr] of the names used here is the
    name between single quotes). *)
Definition no_such_file (p : path) : str :=
  of_ascii "[Errno 2] No such file or directory: '" ++ p ++ of_ascii "'".

Definition permission_denied (p : path) : str :=
  of_ascii "[Errno 13] Permission denied: '" ++ p ++ of_ascii "'".

(** [os.path.exists(p)] *)
Definition path_exists (p : path) : M R bool :=
  fun w =>
    match fs w !! p with
    | Some _ => (Val true, w)
    | None => (Val false, w)
    end.

(** [os.path.getsize(p)] *)
Definition getsize (p : path) : M R nat :=
  fun w =>
    match fs w !! p with
    | Some b => (Val (length b), w)
    | None => (Raise (OSError (no_such_file p)), w)
    end.

(** [os.remove(p)]; [ok] is whether the system lets the file go. *)
Definition remove (p : path) (ok : bool) : M R unit :=
  fun w =>
    match fs w !! p with
    | Some _ =>
        if ok then (Val tt, set_fs (delete p (fs w)) w)
        else (Raise (OSError (permission_denied p)), w)
    | None => (Raise (OSError (no_such_file p)), w)
    end.

(** The transcoder: [ffmpeg -y -i src -acodec pcm_s16le -ac 1 -ar 16000 dst]. *)
Definition run_ffmpeg (src dst : path) (o : run_outcome) : M R (Z * str) :=
  fun w =>
    let calls := ffmpeg_calls w ++ [(src, dst)] in
    match o with
    | RunRaised e =>
        (Raise e, mkWorld (fs w) (log w) (sent w) (delivered w) calls
                          (whisper_calls w))
    | Completed rc err out =>
        let f := match out with
                 | Some b => <[dst := b]> (fs w)
                 | None => fs w
                 end in
        (Val (rc, err), mkWorld f (log w) (sent w) (delivered w) calls
                                (whisper_calls w))
    end.

(** [model.transcribe(p)] followed by the walk over its segments: the
    texts of the segments in the order the model gives them, or the
    model's fault. *)
Definition model_transcribe (p : path) (o : result (list str))
  : M R (list str) :=
  fun w =>
    let w1 := mkWorld (fs w) (log w) (sent w) (delivered w) (ffmpeg_calls w)
                      (whisper_calls w ++ [p]) in
    match o with
    | Ok segments => (Val segments, w1)
    | Err e => (Raise e, w1)
    end.

(** [await websocket.send_text(text)]: the text is handed to the
    transport, which delivers it or raises. *)
Definition send_text (text : str) (o : result unit) : M R unit :=
  fun w =>
    let handed := sent w ++ [text] in
    match o with
    | Ok _ => (Val tt, mkWorld (fs w) (log w) handed (delivered w ++ [text])
                               (ffmpeg_calls w) (whisper_calls w))
    | Err e => (Raise e, mkWorld (fs w) (log w) handed (delivered w)
                                 (ffmpeg_calls w) (whisper_calls w))
    end.

(** One turn of the loop of a [finally] block: if the path exists, try to
    remove it and only print a warning when that fails. *)
Definition remove_if_present (warn : path -> log_entry) (t : path * bool)
  : M R unit :=
  do present <- path_exists (fst t);
  when present
    (try_except (remove (fst t) (snd t))
                (fun _ => print (warn (fst t)))).

(** [for path in [...]: ...] of the [finally] blocks; each path comes with
    the answer of the system to its removal. *)
Definition cleanup (warn : path -> log_entry) (targets : list (path * bool))
  : M R unit :=
  for_each targets (remove_if_present warn).
End Collaborators.

(** ** The one-shot handler: [transcribe_audio] *)

Record upload_env : Type := {
  up_file_id : str;               (* uuid.uuid4().hex *)
  up_content : bytes;             (* await file.read() *)
  up_save : write_outcome;        (* writing input_path *)
  up_ffmpeg : run_outcome;
  up_whisper : result (list str);
  up_rm_input : bool;             (* does os.remove(input_path) succeed *)
  up_rm_audio : bool              (* does os.remove(audio_path) succeed *)
}.

Inductive response : Type :=
| Transcription (text : str)   (* {"transcription": text} *)
| ErrorBody (msg : str)        (* {"error": msg} *)
| ErrorBody500 (msg : str).    (* ({"error": msg}, 500) *)

Definition input_path (file_id : str) : path :=
  of_ascii "temp_input_" ++ file_id ++ of_ascii ".wav".

Definition audio_path (file_id : str) : path :=
  of_ascii "temp_processed_" ++ file_id ++ of_ascii ".wav".

(** "파일 저장 실패": the payload of the upload failure. *)
Definition save_failed_msg : str :=
  [0xD30C; 0xC77C; 0x20; 0xC800; 0xC7A5; 0x20; 0xC2E4; 0xD328]%N.

(** "FFmpeg 변환 실패": the message of the transcoder failure. *)
Definition ffmpeg_failed_msg : str :=
  of_ascii "FFmpeg " ++ [0xBCC0; 0xD658; 0x20; 0xC2E4; 0xD328]%N.

(** The [try] and [except] blocks, lines 42-73. *)
Definition upload_try (env : upload_env) : M response unit :=
  let input_path := input_path (up_file_id env) in
  let audio_path := audio_path (up_file_id env) in
  try_except
    (print (LogSaving input_path) >>
     write_file input_path (up_content env) (up_save env) >>
     do saved <- path_exists input_path;
     when (negb saved)
       (print LogSaveFailed >> exit_ (ErrorBody save_failed_msg)) >>
     print (LogFfmpegStart input_path audio_path) >>
     do result <- run_ffmpeg input_path audio_path (up_ffmpeg env);
     when (negb (fst result =? 0)%Z)
       (print LogFfmpegFailed >>
        print (LogPrint (snd result)) >>
        raise (RuntimeError ffmpeg_failed_msg)) >>
     print LogWhisperStart >>
     do segments <- model_transcribe audio_path (up_whisper env);
     let text := join (of_ascii " ") segments in
     print (LogResult text) >>
     exit_ (Transcription text))
    (fun e =>
       print (LogError (exn_str e)) >>
       exit_ (ErrorBody500 (exn_str e))).

(** The handler: the [finally] block runs on every way out. *)
Definition transcribe_audio (env : upload_env) : M response unit :=
  try_finally
    (upload_try env)
    (cleanup LogWarnRemove
       [(input_path (up_file_id env), up_rm_input env);
        (audio_path (up_file_id env), up_rm_audio env)]).

(** ** The streaming handler: [websocket_endpoint] *)

Record chunk_env : Type := {
  ck_id : str;                    (* uuid.uuid4().hex *)
  ck_raw_write : write_outcome;   (* writing temp_file *)
  ck_wav_write : write_outcome;   (* writing wav_file through wave.open *)
  ck_whisper : result (list str);
  ck_send : result unit;          (* does send_text get through *)
  ck_rm_raw : bool;               (* does os.remove(temp_file) succeed *)
  ck_rm_wav : bool                (* does os.remove(wav_file) succeed *)
}.

Definition temp_file (id : str) : path :=
  of_ascii "temp_ws_" ++ id ++ of_ascii ".raw".

Definition wav_file (id : str) : path :=
  replace (of_ascii ".raw") (of_ascii ".wav") (temp_file id).

(** The inner [try] and [except] blocks of the loop, lines 93-123.
    [Exit tt] is the [continue] of line 113. *)
Definition chunk_try (data : bytes) (env : chunk_env) : M unit unit :=
  let temp_file := temp_file (ck_id env) in
  let wav_file := wav_file (ck_id env) in
  try_except
    (write_file temp_file data (ck_raw_write env) >>
     do artifact <- lift (frame_assemble data);
     write_file wav_file artifact (ck_wav_write env) >>
     do size <- getsize wav_file;
     when (too_small size)
       (print LogWsTooSmall >> exit_ tt) >>
     do segments <- model_transcribe wav_file (ck_whisper env);
     let text := join (of_ascii " ") segments in
     print (LogWsResult text) >>
     when (truthy (strip text))
       (send_text text (ck_send env)))
    (fun process_error => print (LogWsProcessError process_error)).

(** One chunk: the inner [try ... except ... finally], lines 93-131. *)
Definition process_chunk (data : bytes) (env : chunk_env) : M unit unit :=
  try_finally
    (chunk_try data env)
    (cleanup LogWsWarnRemove
       [(temp_file (ck_id env), ck_rm_raw env);
        (wav_file (ck_id env), ck_rm_wav env)]).

(** What [await websocket.receive_bytes()] gives: a chunk (with the script
    of the collaborators for its processing), or an exception: the peer's
    disconnect, or any other fault of the transport. *)
Inductive recv_event : Type :=
| RecvBytes (data : bytes) (env : chunk_env)
| RecvRaised (e : exn).

(** One turn of [while True] ends normally or by [continue]; both go on to
    the next turn. *)
Definition loop_turn (body : M unit unit) : M unit unit :=
  fun w =>
    match body w with
    | (Exit _, w1) => (Val tt, w1)
    | other => other
    end.

(** The [while True] loop over the events of the connection.  When the
    events run out the handler is suspended in [receive_bytes]. *)
Fixpoint receive_loop (events : list recv_event) : M unit unit :=
  match events with
  | [] => ret tt
  | RecvRaised e :: _ => raise e
  | RecvBytes data env :: rest =>
      print (LogWsReceived (length data)) >>
      loop_turn (process_chunk data env) >>
      receive_loop rest
  end.

Inductive session_state : Type :=
| AWAITING_CHUNK
| CLOSED.

Definition websocket_endpoint (events : list recv_event)
  : world -> session_state * world :=
  fun w =>
    match (print LogWsConnected >> receive_loop events) w with
    | (Raise WebSocketDisconnect, w1) =>
        (CLOSED, snd (print (R := unit) LogWsDisconnected w1))
    | (Raise e, w1) =>
        (CLOSED, snd (print (R := unit) (LogWsException e) w1))
    | (_, w1) => (AWAITING_CHUNK, w1)
    end.

(** A chunk passes the quality gate when processing reaches line 111 and
    the size found there is accepted. *)
Definition reaches_gate (env : chunk_env) : bool :=
  match ck_raw_write env, ck_wav_write env with
  | WriteFailed _ _, _ => false
  | _, Written => true
  | _, _ => false
  end.

Definition assembled_size (data : bytes) : nat :=
  44 + length (pad_even data).

Definition passes_gate (data : bytes) (env : chunk_env) : bool :=
  reaches_gate env && quality_gate (assembled_size data).

(** The text of a chunk, when the model yields one. *)
Definition chunk_text (env : chunk_env) : str :=
  match ck_whisper env with
  | Ok segments => join (of_ascii " ") segments
  | Err _ => []
  end.

(** The model answers the chunk with text that is not blank. *)
Definition yields_text (env : chunk_env) : bool :=
  match ck_whisper env with
  | Ok _ => truthy (strip (chunk_text env))
  | Err _ => false
  end.

Definition send_ok (env : chunk_env) : bool :=
  match ck_send env with
  | Ok _ => true
  | Err _ => false
  end.

(** The chunk makes the handler send a text message. *)
Definition emits (data : bytes) (env : chunk_env) : bool :=
  passes_gate data env && yields_text env.

(** The message of the chunk gets through to the peer. *)
Definition delivers (data : bytes) (env : chunk_env) : bool :=
  emits data env && send_ok env.

(** The first fault met while processing a chunk, if any: a failed write,
    a container file that is not there when its size is asked for, a fault
    of the model, or a message that does not get through. *)
Definition chunk_fault (data : bytes) (env : chunk_env) : option exn :=
  match ck_raw_write env with
  | WriteFailed e _ => Some e
  | _ =>
      match ck_wav_write env with
      | WriteFailed e _ => Some e
      | Vanished => Some (OSError (no_such_file (wav_file (ck_id env))))
      | Written =>
          if quality_gate (assembled_size data) then
            match ck_whisper env with
            | Err e => Some e
            | Ok _ =>
                if yields_text env then
                  match ck_send env with
                  | Err e => Some e
                  | Ok _ => None
                  end
                else None
            end
          else None
      end
  end.

(** A session as seen from the transport: the chunks it receives, in
    order, and then possibly the exception that ends it. *)
Definition chunk_event (c : bytes * chunk_env) : recv_event :=
  RecvBytes (fst c) (snd c).

Definition session_events (chunks : list (bytes * chunk_env))
    (ending : option exn) : list recv_event :=
  map chunk_event chunks
  ++ match ending with
     | Some e => [RecvRaised e]
     | None => []
     end.

Definition initial_world : world := mkWorld ∅ [] [] [] [] [].

(** The world after one received chunk: the receipt is printed (line 91),
    then the chunk is processed. *)
Definition after_chunk (data : bytes) (env : chunk_env) (w : world) : world :=
  snd (process_chunk data env
         (snd (print (R := unit) (LogWsReceived (length data)) w))).

(** The messages the handler sends for a run of chunks, in order, and
    those of them that get through. *)
Definition messages (chunks : list (bytes * chunk_env)) : list str :=
  map (fun c => chunk_text (snd c))
      (List.filter (fun c => emits (fst c) (snd c)) chunks).

Definition deliveries (chunks : list (bytes * chunk_env)) : list str :=
  map (fun c => chunk_text (snd c))
      (List.filter (fun c => delivers (fst c) (snd c)) chunks).

(** What one step of the loop leaves behind, by the script of the chunk. *)
Definition chunk_effects (data : bytes) (env : chunk_env) (w w' : world)
    : Prop :=
  ffmpeg_calls w' = ffmpeg_calls w
  /\ whisper_calls w'
     = whisper_calls w
       ++ (if passes_gate data env then [wav_file (ck_id env)] else [])
  /\ sent w' = sent w ++ (if emits data env then [chunk_text env] else [])
  /\ delivered w'
     = delivered w ++ (if delivers data env then [chunk_text env] else [])
  /\ (exists extra, log w' = log w ++ extra)
  /\ (forall e, chunk_fault data env = Some e ->
                In (LogWsProcessError e) (log w')).

(** A temporary file after a [finally] block: it is gone, or its removal
    failed and the warning is in the log. *)
Definition gone_or_warned (warn : path -> log_entry) (p : path) (ok : bool)
    (w : world) : Prop :=
  fs w !! p = None \/ (ok = false /\ In (warn p) (log w)).

(** What the [try]/[except] part of the upload handler answers and whom it
    invokes, by the answers of the collaborators. *)
Definition upload_outcome (env : upload_env) (w : world) (r : response)
    (w1 : world) : Prop :=
  let input := input_path (up_file_id env) in
  let audio := audio_path (up_file_id env) in
  match up_save env with
  | Vanished =>
      r = ErrorBody save_failed_msg
      /\ ffmpeg_calls w1 = ffmpeg_calls w /\ whisper_calls w1 = whisper_calls w
  | WriteFailed e _ =>
      r = ErrorBody500 (exn_str e)
      /\ ffmpeg_calls w1 = ffmpeg_calls w /\ whisper_calls w1 = whisper_calls w
  | Written =>
      ffmpeg_calls w1 = ffmpeg_calls w ++ [(input, audio)]
      /\ match up_ffmpeg env with
         | RunRaised e =>
             r = ErrorBody500 (exn_str e) /\ whisper_calls w1 = whisper_calls w
         | Completed rc err out =>
             if (rc =? 0)%Z then
               whisper_calls w1 = whisper_calls w ++ [audio]
               /\ r = match up_whisper env with
                      | Ok segments => Transcription (join (of_ascii " ") segments)
                      | Err e => ErrorBody500 (exn_str e)
                      end
             else
               r = ErrorBody500 ffmpeg_failed_msg
               /\ whisper_calls w1 = whisper_calls w
               /\ In (LogPrint err) (log w1)
         end
  end.

(** ** Sample requests and chunks *)

Definition chunk_script (whisper : result (list str)) : chunk_env :=
  {| ck_id := of_ascii "0f3a";
     ck_raw_write := Written; ck_wav_write := Written;
     ck_whisper := whisper; ck_send := Ok tt;
     ck_rm_raw := true; ck_rm_wav := true |}.

Definition spoken_chunk : chunk_env :=
  chunk_script (Ok [of_ascii " good"; of_ascii " morning"]).

Definition silent_chunk : chunk_env :=
  chunk_script (Ok [of_ascii " "]).

Definition failing_chunk : chunk_env :=
  chunk_script (Err (RuntimeError (of_ascii "CUDA out of memory"))).

(** A chunk whose files the system does not let go. *)
Definition leaking_chunk : chunk_env :=
  {| ck_id := of_ascii "0f3a";
     ck_raw_write := Written; ck_wav_write := Written;
     ck_whisper := Ok [of_ascii " good"]; ck_send := Ok tt;
     ck_rm_raw := false; ck_rm_wav := false |}.

Definition pcm (n : nat) : bytes := repeat x01 n.

Definition upload_script (content : bytes) (ffmpeg : run_outcome)
    (whisper : result (list str)) : upload_env :=
  {| up_file_id := of_ascii "7c1e";
     up_content := content; up_save := Written;
     up_ffmpeg := ffmpeg; up_whisper := whisper;
     up_rm_input := true; up_rm_audio := true |}.

(** An empty upload; ffmpeg finds nothing to decode in it. *)
Definition empty_upload : upload_env :=
  upload_script []
    (Completed 1 (of_ascii "Invalid data found when processing input") None)
    (Ok []).

(** An upload ffmpeg cannot read. *)
Definition unreadable_upload : upload_env :=
  upload_script [x00; x01; x02; x03]
    (Completed 1 (of_ascii "moov atom not found") None)
    (Ok []).

(** An upload that goes through. *)
Definition spoken_upload : upload_env :=
  upload_script (wave_file 1 2 16000 (pcm 8))
    (Completed 0 [] (Some (wave_file 1 2 16000 (pcm 8))))
    (Ok [of_ascii " Hello"; of_ascii " world"]).

(** The model fails on an upload that was transcoded. *)
Definition model_fault_upload : upload_env :=
  upload_script (wave_file 1 2 16000 (pcm 8))
    (Completed 0 [] (Some (wave_file 1 2 16000 (pcm 8))))
    (Err (RuntimeError (of_ascii "CUDA out of memory"))).

(** An upload in which the model hears nothing. *)
Definition blank_upload : upload_env :=
  upload_script (wave_file 1 2 16000 (pcm 8))
    (Completed 0 [] (Some (wave_file 1 2 16000 (pcm 8))))
    (Ok [of_ascii " "]).

(** ** Notions for the properties of whole sessions and requests *)

(** The world after a run of chunks, each received and processed in turn. *)
Definition run_chunks (chunks : list (bytes * chunk_env)) (w : world) : world :=
  fold_left (fun w1 c => after_chunk (fst c) (snd c) w1) chunks w.

(** What the handler prints when an exception ends the loop, lines 133-136. *)
Definition closing_entry (e : exn) : log_entry :=
  match e with
  | WebSocketDisconnect => LogWsDisconnected
  | _ => LogWsException e
  end.

(** Whether the step of a chunk ends by the [continue] of line 113. *)
Definition skipped (data : bytes) (env : chunk_env) : bool :=
  reaches_gate env && negb (quality_gate (assembled_size data)).

(** The exception that reaches the [except] block of the upload handler, if
    any: a failed save, a transcoder that cannot be started or exits with a
    status other than 0, a fault of the model. *)
Definition upload_fault (env : upload_env) : option exn :=
  match up_save env with
  | WriteFailed e _ => Some e
  | Vanished => None
  | Written =>
      match up_ffmpeg env with
      | RunRaised e => Some e
      | Completed rc _ _ =>
          if (rc =? 0)%Z then
            match up_whisper env with
            | Err e => Some e
            | Ok _ => None
            end
          else Some (RuntimeError ffmpeg_failed_msg)
      end
  end.

(** The upload is saved and the transcoder exits with status 0. *)
Definition reaches_model (env : upload_env) : bool :=
  match up_save env, up_ffmpeg env with
  | Written, Completed rc _ _ => (rc =? 0)%Z
  | _, _ => false
  end.

Definition saved (env : upload_env) : bool :=
  match up_save env with
  | Written => true
  | _ => false
  end.

(** The response of the upload handler, read off the answers of the
    collaborators. *)
Definition upload_response (env : upload_env) : response :=
  match upload_fault env with
  | Some e => ErrorBody500 (exn_str e)
  | None =>
      match up_save env, up_whisper env with
      | Written, Ok segments => Transcription (join (of_ascii " ") segments)
      | _, _ => ErrorBody save_failed_msg
      end
  end.

(** Identifiers without a dot, as the 32 hexadecimal digits of
    [uuid.uuid4().hex] are. *)
Definition dot_free (id : str) : Prop := Forall (fun c => c <> 46%N) id.

(** The text holds a code point that is not whitespace. *)
Definition nonblank (s : str) : bool :=
  existsb (fun c => negb (py_isspace c)) s.

(** ** Proof steps shared by the handlers' lemmas *)

Ltac run_step :=
  cbn [fs set_fs log sent delivered ffmpeg_calls whisper_calls fst snd];
  rewrite ?lookup_insert_eq, ?lookup_delete_eq.

Ltac log_grows :=
  rewrite <- ?app_assoc;
  first [ eexists; reflexivity | exists []; now rewrite app_nil_r ].

Ltac other_paths :=
  repeat first
    [ rewrite lookup_insert_ne by congruence
    | rewrite lookup_delete_ne by congruence ].

(** * Properties *)

(** ** Samples and the container *)

Lemma byte_of_N_small (b : byte) (n : N) :
  (n mod 256 = Byte.to_N b)%N -> byte_of_N n = b.
Proof.
  intros H. unfold byte_of_N. rewrite H, Byte.of_to_N. reflexivity.
Qed.

Lemma int16_le_roundtrip (lo hi : byte) :
  int16_to_le (int16_of_le lo hi) = [lo; hi].
Proof.
  pose proof (Byte.to_N_bounded lo) as Hlo.
  pose proof (Byte.to_N_bounded hi) as Hhi.
  unfold int16_to_le, int16_of_le.
  set (a := Byte.to_N lo) in *. set (b := Byte.to_N hi) in *.
  assert (Hu : Z.to_N ((if (Z.of_N a + 256 * Z.of_N b <? 32768)%Z
                        then (Z.of_N a + 256 * Z.of_N b)%Z
                        else (Z.of_N a + 256 * Z.of_N b - 65536)%Z) mod 65536)
               = (a + 256 * b)%N).
  { destruct (Z.ltb_spec (Z.of_N a + 256 * Z.of_N b) 32768).
    - rewrite Z.mod_small by lia. lia.
    - replace (Z.of_N a + 256 * Z.of_N b - 65536)%Z
        with (Z.of_N a + 256 * Z.of_N b + (-1) * 65536)%Z by lia.
      rewrite Z.mod_add by lia. rewrite Z.mod_small by lia. lia. }
  cbv zeta. rewrite Hu.
  f_equal; [| f_equal]; apply byte_of_N_small; subst a b.
  - rewrite (N.mul_comm 256), N.Div0.mod_add. apply N.mod_small. lia.
  - rewrite (N.mul_comm 256), N.div_add by lia.
    rewrite (N.div_small (Byte.to_N lo)) by lia.
    apply N.mod_small. lia.
Qed.

Lemma even_mod2 (n : nat) : Nat.even n = (n mod 2 =? 0)%nat.
Proof.
  pose proof (Nat.div_mod_eq n 2) as Hdm.
  destruct (Nat.even n) eqn:E; symmetry.
  - apply Nat.even_spec in E. destruct E as [k Hk].
    apply Nat.eqb_eq. pose proof (Nat.mod_upper_bound n 2). lia.
  - apply Nat.eqb_neq. intros H.
    assert (Nat.even n = true); [| congruence].
    apply Nat.even_spec. exists (n / 2)%nat. lia.
Qed.

Lemma samples_roundtrip (k : nat) :
  forall b : bytes, length b = (2 * k)%nat -> tobytes (samples_of b) = b.
Proof.
  induction k as [| k IH]; intros b Hlen.
  - destruct b; [reflexivity | discriminate].
  - destruct b as [| lo [| hi rest]]; simpl in Hlen; try lia.
    cbn [samples_of tobytes flat_map].
    rewrite int16_le_roundtrip. cbn [app]. f_equal. f_equal.
    apply IH. lia.
Qed.

Lemma samples_length (k : nat) :
  forall b : bytes, length b = (2 * k)%nat -> length (samples_of b) = k.
Proof.
  induction k as [| k IH]; intros b Hlen.
  - destruct b; [reflexivity | discriminate].
  - destruct b as [| lo [| hi rest]]; simpl in Hlen; try lia.
    cbn [samples_of length]. f_equal. apply IH. lia.
Qed.

Lemma pad_even_length (data : bytes) : (length (pad_even data) mod 2 = 0)%nat.
Proof.
  unfold pad_even.
  pose proof (Nat.div_mod_eq (length data) 2) as Hdm.
  pose proof (Nat.mod_upper_bound (length data) 2) as Hub.
  destruct (Nat.eqb_spec (length data mod 2) 0) as [E | E]; cbn [negb].
  - exact E.
  - rewrite length_app. cbn [length].
    replace (length data + 1)%nat with (0 + (length data / 2 + 1) * 2)%nat by lia.
    apply Nat.Div0.mod_add.
Qed.

Lemma pad_even_parity (data : bytes) :
  pad_even data = if Nat.even (length data) then data else data ++ [x00].
Proof. unfold pad_even. rewrite even_mod2. destruct (_ =? _)%nat; reflexivity. Qed.

Lemma pad_even_Even (data : bytes) : Nat.Even (length (pad_even data)).
Proof.
  apply Nat.even_spec. rewrite even_mod2, pad_even_length. reflexivity.
Qed.

Lemma frame_payload_padded (data : bytes) :
  frame_payload data = Ok (pad_even data).
Proof.
  unfold frame_payload, frombuffer_int16.
  pose proof (pad_even_length data) as Hlen. rewrite Hlen. cbn [Nat.eqb].
  f_equal. apply (samples_roundtrip (length (pad_even data) / 2)).
  pose proof (Nat.div_mod_eq (length (pad_even data)) 2). lia.
Qed.

Lemma wave_header_length (nch sw fr n : N) :
  length (wave_header nch sw fr n) = 44%nat.
Proof. reflexivity. Qed.

Lemma wave_file_length (nch sw fr : N) (frames : bytes) :
  length (wave_file nch sw fr frames) = (44 + length frames)%nat.
Proof. unfold wave_file. rewrite length_app. reflexivity. Qed.

Lemma wave_frames_file (nch sw fr : N) (frames : bytes) :
  wave_frames (wave_file nch sw fr frames) = frames.
Proof. reflexivity. Qed.

Lemma frame_assemble_padded (data : bytes) :
  frame_assemble data = Ok (wave_file 1 2 16000 (pad_even data)).
Proof. unfold frame_assemble. rewrite frame_payload_padded. reflexivity. Qed.

Lemma quality_gate_iff (size : nat) :
  quality_gate size = true <-> (1000 <= size)%nat.
Proof.
  unfold quality_gate, too_small.
  destruct (Nat.ltb_spec size 1000); cbn [negb]; split; intros; try lia;
    congruence.
Qed.

Lemma assembled_too_small (data : bytes) :
  too_small (length (wave_file 1 2 16000 (pad_even data)))
  = negb (quality_gate (assembled_size data)).
Proof.
  rewrite wave_file_length. unfold quality_gate, assembled_size.
  now rewrite negb_involutive.
Qed.

(** C4: for every buffer the assembler produces a container whose frames
    are the buffer itself when its length is even, and the buffer followed
    by one zero byte when its length is odd; the frames always have even
    length, and they follow the 44-byte header that declares one channel,
    two bytes per sample and 16000 frames per second. *)
Theorem frame_assembler_payload (B : bytes) :
  exists artifact,
    frame_assemble B = Ok artifact
    /\ wave_frames artifact = (if Nat.even (length B) then B else B ++ [x00])
    /\ Nat.Even (length (wave_frames artifact))
    /\ firstn 44 artifact
       = wave_header 1 2 16000 (N.of_nat (length (wave_frames artifact))).
Proof.
  exists (wave_file 1 2 16000 (pad_even B)).
  rewrite frame_assemble_padded, wave_frames_file.
  split_and!.
  - reflexivity.
  - apply pad_even_parity.
  - apply pad_even_Even.
  - reflexivity.
Qed.

(** C9: whatever the buffer, odd lengths included, it has even length when
    it is read as 16-bit samples (one zero byte was appended to an odd
    one), so that the reading yields an array, one sample per two bytes,
    and never the fault of a buffer that is not a multiple of the sample
    size. *)
Theorem frame_assembler_never_faults (B : bytes) :
  Nat.Even (length (pad_even B))
  /\ pad_even B = (if Nat.odd (length B) then B ++ [x00] else B)
  /\ exists audio_data,
       frombuffer_int16 (pad_even B) = Ok audio_data
       /\ (2 * length audio_data = length (pad_even B))%nat.
Proof.
  split_and!.
  - apply pad_even_Even.
  - rewrite pad_even_parity. unfold Nat.odd. now destruct (Nat.even _).
  - exists (samples_of (pad_even B)).
    unfold frombuffer_int16. rewrite pad_even_length. cbn [Nat.eqb].
    split; [reflexivity |].
    pose proof (Nat.div_mod_eq (length (pad_even B)) 2) as Hdm.
    rewrite pad_even_length in Hdm.
    rewrite (samples_length (length (pad_even B) / 2)); lia.
Qed.

(** ** File names *)

Lemma replace_from_no_dot (id : str) :
  Forall (fun c => c <> 46%N) id ->
  replace_from (of_ascii ".raw") (of_ascii ".wav") 0 (id ++ of_ascii ".raw")
  = id ++ of_ascii ".wav".
Proof.
  induction 1 as [| c id Hc _ IH].
  - reflexivity.
  - cbn [app replace_from].
    change (of_ascii ".raw") with [46; 114; 97; 119]%N at 1.
    cbn [startswith]. apply N.eqb_neq in Hc. rewrite N.eqb_sym, Hc.
    cbn [andb]. now rewrite IH.
Qed.

(** For an identifier without a dot, as the hexadecimal digits of a uuid
    are, [replace] only touches the extension. *)
Lemma wav_file_of_hex (id : str) :
  Forall (fun c => c <> 46%N) id ->
  wav_file id = of_ascii "temp_ws_" ++ id ++ of_ascii ".wav".
Proof.
  intros Hid. unfold wav_file, temp_file, replace.
  change (of_ascii ".raw") with [46; 114; 97; 119]%N at 1.
  cbv iota.
  change (of_ascii "temp_ws_") with [116; 101; 109; 112; 95; 119; 115; 95]%N.
  cbn [app replace_from startswith N.eqb Pos.eqb andb].
  do 8 f_equal. now apply replace_from_no_dot.
Qed.

(** ** The [finally] blocks *)

Section Finally.
Context {R : Type} (warn : path -> log_entry).

Lemma remove_if_present_spec (p : path) (ok : bool) (w : world) :
  exists w' extra,
    remove_if_present (R := R) warn (p, ok) w = (Val tt, w')
    /\ sent w' = sent w
    /\ delivered w' = delivered w
    /\ ffmpeg_calls w' = ffmpeg_calls w
    /\ whisper_calls w' = whisper_calls w
    /\ log w' = log w ++ extra
    /\ Forall (fun x => exists q, x = warn q) extra
    /\ gone_or_warned warn p ok w'
    /\ (forall q, fs w !! q = None -> fs w' !! q = None).
Proof.
  unfold remove_if_present, gone_or_warned, bind, path_exists, when,
    try_except, remove, print, ret.
  cbn [fst snd].
  destruct (fs w !! p) eqn:Hp; [destruct ok |]; rewrite ?Hp.
  - exists (set_fs (delete p (fs w)) w), [].
    run_step. rewrite app_nil_r. split_and!; auto.
    intros q Hq. rewrite lookup_delete. case_decide; auto.
  - eexists; exists [warn p]. run_step. split_and!; eauto.
    right. split; [reflexivity |]. apply in_or_app. right. now left.
  - exists w, []. rewrite app_nil_r. split_and!; auto.
Qed.

Lemma cleanup_two (p1 : path) (ok1 : bool) (p2 : path) (ok2 : bool)
    (w : world) :
  exists w' extra,
    cleanup (R := R) warn [(p1, ok1); (p2, ok2)] w = (Val tt, w')
    /\ sent w' = sent w
    /\ delivered w' = delivered w
    /\ ffmpeg_calls w' = ffmpeg_calls w
    /\ whisper_calls w' = whisper_calls w
    /\ log w' = log w ++ extra
    /\ Forall (fun x => exists q, x = warn q) extra
    /\ gone_or_warned warn p1 ok1 w'
    /\ gone_or_warned warn p2 ok2 w'.
Proof.
  destruct (remove_if_present_spec p1 ok1 w)
    as (w1 & x1 & E1 & S1 & D1 & F1 & W1 & L1 & A1 & G1 & K1).
  destruct (remove_if_present_spec p2 ok2 w1)
    as (w2 & x2 & E2 & S2 & D2 & F2 & W2 & L2 & A2 & G2 & K2).
  exists w2, (x1 ++ x2). unfold cleanup. cbn [for_each].
  unfold bind at 1. rewrite E1. unfold bind at 1. rewrite E2.
  split_and!; try congruence.
  - reflexivity.
  - rewrite L2, L1. now rewrite app_assoc.
  - apply Forall_app. now split.
  - destruct G1 as [G1 | [-> G1]]; [left; auto | right; split; [reflexivity |]].
    rewrite L2. apply in_or_app. now left.
Qed.
End Finally.

(** ** One chunk *)

Lemma chunk_try_spec (data : bytes) (env : chunk_env) (w : world) :
  exists c w1,
    chunk_try data env w = (c, w1)
    /\ (c = Val tt \/ (c = Exit tt /\ passes_gate data env = false))
    /\ chunk_effects data env w w1.
Proof.
  unfold chunk_effects, chunk_try, chunk_fault, delivers, emits, passes_gate,
    yields_text, send_ok, chunk_text, reaches_gate.
  rewrite frame_assemble_padded.
  unfold try_except, bind, lift, ret, raise, exit_, when, write_file, getsize,
    model_transcribe, send_text, print.
  destruct (ck_raw_write env) as [| | e1 [b1 |]]; run_step;
  destruct (ck_wav_write env) as [| | e2 [b2 |]]; run_step;
    rewrite ?assembled_too_small;
    destruct (quality_gate (assembled_size data)); cbn [negb andb]; run_step;
    try (destruct (ck_whisper env) as [segments | e3]; run_step;
         try destruct (truthy (strip (join (of_ascii " ") segments)));
         cbn [andb];
         try (destruct (ck_send env) as [[] | e4]; run_step)).
  all: do 2 eexists; (split; [reflexivity |]); run_step;
    rewrite ?app_nil_r; split_and!; eauto; try reflexivity; try log_grows.
  all: intros e [= <-]; rewrite ?in_app_iff; cbn [In]; auto.
Qed.

(** A chunk the gate turns away: nothing but the notice is printed. *)
Lemma chunk_try_skip (data : bytes) (env : chunk_env) (w : world) :
  reaches_gate env = true ->
  quality_gate (assembled_size data) = false ->
  exists w1,
    chunk_try data env w = (Exit tt, w1)
    /\ log w1 = log w ++ [LogWsTooSmall].
Proof.
  unfold chunk_try, reaches_gate. intros Hreach Hgate.
  rewrite frame_assemble_padded.
  unfold try_except, bind, lift, ret, raise, exit_, when, write_file, getsize,
    print.
  destruct (ck_raw_write env) as [| | e1 [b1 |]]; try discriminate;
    destruct (ck_wav_write env) as [| | e2 [b2 |]]; try discriminate;
    run_step; rewrite assembled_too_small, Hgate; cbn [negb];
    eexists; split; reflexivity.
Qed.

Lemma process_chunk_spec (data : bytes) (env : chunk_env) (w : world) :
  exists c w',
    process_chunk data env w = (c, w')
    /\ (c = Val tt \/ (c = Exit tt /\ passes_gate data env = false))
    /\ chunk_effects data env w w'
    /\ gone_or_warned LogWsWarnRemove (temp_file (ck_id env)) (ck_rm_raw env) w'
    /\ gone_or_warned LogWsWarnRemove (wav_file (ck_id env)) (ck_rm_wav env) w'.
Proof.
  destruct (chunk_try_spec data env w)
    as (c & w1 & Etry & Hc & Hff & Hwh & Hsent & Hdel & [x1 Hlog] & Hfault).
  destruct (cleanup_two (R := unit) LogWsWarnRemove
              (temp_file (ck_id env)) (ck_rm_raw env)
              (wav_file (ck_id env)) (ck_rm_wav env) w1)
    as (w2 & x2 & Efin & Hs2 & Hd2 & Hf2 & Hw2 & Hl2 & _ & Hraw & Hwav).
  exists c, w2. unfold process_chunk, try_finally. rewrite Etry, Efin.
  unfold chunk_effects. split_and!; try congruence; auto.
  - exists (x1 ++ x2). rewrite Hl2, Hlog. now rewrite app_assoc.
  - intros e He. rewrite Hl2. apply in_or_app. left. auto.
Qed.

Lemma process_chunk_skip (data : bytes) (env : chunk_env) (w : world) :
  reaches_gate env = true ->
  quality_gate (assembled_size data) = false ->
  exists w' warnings,
    process_chunk data env w = (Exit tt, w')
    /\ log w' = log w ++ LogWsTooSmall :: warnings
    /\ Forall (fun x => exists q, x = LogWsWarnRemove q) warnings.
Proof.
  intros Hreach Hgate.
  destruct (chunk_try_skip data env w Hreach Hgate) as (w1 & Etry & Hlog).
  destruct (cleanup_two (R := unit) LogWsWarnRemove
              (temp_file (ck_id env)) (ck_rm_raw env)
              (wav_file (ck_id env)) (ck_rm_wav env) w1)
    as (w2 & x2 & Efin & _ & _ & _ & _ & Hl2 & Hwarn & _).
  exists w2, x2. unfold process_chunk, try_finally. rewrite Etry, Efin.
  split_and!; auto.
  rewrite Hl2, Hlog. now rewrite <- app_assoc.
Qed.

(** A chunk that met a fault delivers nothing. *)
Lemma fault_no_delivery (data : bytes) (env : chunk_env) (e : exn) :
  chunk_fault data env = Some e -> delivers data env = false.
Proof.
  unfold chunk_fault, delivers, emits, passes_gate, reaches_gate, yields_text,
    send_ok.
  destruct (ck_raw_write env), (ck_wav_write env); cbn [andb]; auto;
    destruct (quality_gate (assembled_size data)); cbn [andb]; auto;
    destruct (ck_whisper env); cbn [andb]; auto;
    destruct (truthy (strip (chunk_text env))); cbn [andb]; auto;
    destruct (ck_send env); auto; discriminate.
Qed.

(** A fault of the model, or any fault before it, sends nothing. *)
Lemma model_fault_no_message (data : bytes) (env : chunk_env) (e : exn) :
  ck_whisper env = Err e -> emits data env = false.
Proof.
  unfold emits, yields_text. intros ->. apply andb_false_r.
Qed.

(** ** The receive loop *)

Lemma loop_turn_chunk (data : bytes) (env : chunk_env) (w : world) :
  loop_turn (process_chunk data env) w
  = (Val tt, snd (process_chunk data env w)).
Proof.
  destruct (process_chunk_spec data env w) as (c & w' & E & Hc & _).
  unfold loop_turn. rewrite E.
  destruct Hc as [-> | [-> _]]; reflexivity.
Qed.

Lemma receive_loop_chunk (data : bytes) (env : chunk_env)
    (rest : list recv_event) (w : world) :
  receive_loop (RecvBytes data env :: rest) w
  = receive_loop rest (after_chunk data env w).
Proof.
  cbn [receive_loop]. unfold after_chunk, bind, print. cbn [snd].
  rewrite loop_turn_chunk. reflexivity.
Qed.

Lemma after_chunk_spec (data : bytes) (env : chunk_env) (w : world) :
  ffmpeg_calls (after_chunk data env w) = ffmpeg_calls w
  /\ whisper_calls (after_chunk data env w)
     = whisper_calls w
       ++ (if passes_gate data env then [wav_file (ck_id env)] else [])
  /\ sent (after_chunk data env w)
     = sent w ++ (if emits data env then [chunk_text env] else [])
  /\ delivered (after_chunk data env w)
     = delivered w ++ (if delivers data env then [chunk_text env] else [])
  /\ (forall e, chunk_fault data env = Some e ->
                In (LogWsProcessError e) (log (after_chunk data env w))).
Proof.
  unfold after_chunk.
  set (w0 := snd (print (R := unit) (LogWsReceived (length data)) w)).
  destruct (process_chunk_spec data env w0)
    as (c & w' & E & _ & (Hff & Hwh & Hsent & Hdel & _ & Hfault) & _).
  rewrite E. cbn [snd]. subst w0. unfold print in *. cbn [snd] in *.
  cbn [fs log sent delivered ffmpeg_calls whisper_calls] in *.
  split_and!; auto.
Qed.

Lemma receive_loop_session (chunks : list (bytes * chunk_env))
    (ending : option exn) :
  forall w : world,
  exists w',
    receive_loop (session_events chunks ending) w
    = (match ending with Some e => Raise e | None => Val tt end, w')
    /\ sent w' = sent w ++ messages chunks
    /\ delivered w' = delivered w ++ deliveries chunks.
Proof.
  induction chunks as [| [data env] chunks IH]; intros w.
  - exists w. unfold messages, deliveries. cbn. rewrite !app_nil_r.
    destruct ending; auto.
  - change (session_events ((data, env) :: chunks) ending)
      with (RecvBytes data env :: session_events chunks ending).
    rewrite receive_loop_chunk.
    destruct (after_chunk_spec data env w) as (_ & _ & Hsent & Hdel & _).
    destruct (IH (after_chunk data env w)) as (w' & E & Hs & Hd).
    exists w'. split; [exact E |].
    rewrite Hs, Hsent, Hd, Hdel. unfold messages, deliveries.
    cbn [List.filter fst snd].
    destruct (emits data env), (delivers data env); cbn [map app fst snd];
      now rewrite <- ?app_assoc, ?app_nil_r.
Qed.

Lemma websocket_endpoint_session (chunks : list (bytes * chunk_env))
    (ending : option exn) (w : world) :
  exists w',
    websocket_endpoint (session_events chunks ending) w
    = (match ending with Some _ => CLOSED | None => AWAITING_CHUNK end, w')
    /\ sent w' = sent w ++ messages chunks
    /\ delivered w' = delivered w ++ deliveries chunks.
Proof.
  unfold websocket_endpoint. unfold bind at 1. unfold print at 1.
  match goal with
  | |- context [receive_loop _ ?w0] =>
      destruct (receive_loop_session chunks ending w0) as (w1 & E & Hs & Hd);
      rewrite E
  end.
  cbn [sent delivered] in Hs, Hd.
  destruct ending as [[] |]; eexists; (split; [reflexivity |]);
    split; assumption.
Qed.

Lemma deliveries_app (xs ys : list (bytes * chunk_env)) :
  deliveries (xs ++ ys) = deliveries xs ++ deliveries ys.
Proof. unfold deliveries. now rewrite List.filter_app, map_app. Qed.

(** C5: the gate accepts a size exactly when it is at least 1000 bytes (999
    is turned away, 1000 is let through); a chunk turned away is skipped in
    silence: its step ends by [continue], the model is not invoked, no text
    is handed to [send_text], the log gains the notice of a small file and
    after it only warnings of the cleanup, no error; and the loop goes on
    with what is received next. *)
Theorem quality_gate_skips_small :
  (forall size, quality_gate size = true <-> (1000 <= size)%nat)
  /\ quality_gate 999 = false
  /\ quality_gate 1000 = true
  /\ (forall data env w rest,
        reaches_gate env = true ->
        quality_gate (assembled_size data) = false ->
        exists w' warnings,
          process_chunk data env w = (Exit tt, w')
          /\ whisper_calls w' = whisper_calls w
          /\ sent w' = sent w
          /\ log w' = log w ++ LogWsTooSmall :: warnings
          /\ Forall (fun x => exists q, x = LogWsWarnRemove q) warnings
          /\ chunk_fault data env = None
          /\ receive_loop (RecvBytes data env :: rest) w
             = receive_loop rest (after_chunk data env w)).
Proof.
  split_and!.
  - apply quality_gate_iff.
  - reflexivity.
  - reflexivity.
  - intros data env w rest Hreach Hgate.
    destruct (process_chunk_skip data env w Hreach Hgate)
      as (w' & warnings & E & Hlog & Hwarn).
    destruct (process_chunk_spec data env w)
      as (c & w2 & E2 & _ & (_ & Hwh & Hsent & _) & _).
    rewrite E in E2. injection E2 as <- <-.
    assert (Hpass : passes_gate data env = false)
      by (unfold passes_gate; rewrite Hgate; apply andb_false_r).
    assert (Hemit : emits data env = false)
      by (unfold emits; now rewrite Hpass).
    rewrite Hpass in Hwh. rewrite Hemit in Hsent. rewrite app_nil_r in *.
    exists w', warnings. split_and!; auto.
    + unfold chunk_fault, reaches_gate in *.
      destruct (ck_raw_write env), (ck_wav_write env); try discriminate;
        now rewrite Hgate.
    + apply receive_loop_chunk.
Qed.

(** C10: in the streaming path the gate measures the container file, 44
    bytes of header and then the padded samples, not the raw chunk: when
    the files are written without fault, the model is invoked for a chunk
    exactly when its length padded up to even is at least 956 bytes, and is
    not invoked exactly when that length is below 956. *)
Theorem gate_measures_container (data : bytes) (env : chunk_env) (w : world) :
  reaches_gate env = true ->
  (exists artifact,
      frame_assemble data = Ok artifact
      /\ length artifact = (44 + length (pad_even data))%nat)
  /\ (whisper_calls (snd (process_chunk data env w))
      = whisper_calls w ++ [wav_file (ck_id env)]
      <-> (956 <= length (pad_even data))%nat)
  /\ (whisper_calls (snd (process_chunk data env w)) = whisper_calls w
      <-> (length (pad_even data) < 956)%nat).
Proof.
  intros Hreach.
  destruct (process_chunk_spec data env w)
    as (c & w' & E & _ & (_ & Hwh & _) & _).
  rewrite E. cbn [snd]. rewrite Hwh.
  unfold passes_gate. rewrite Hreach. cbn [andb].
  pose proof (quality_gate_iff (assembled_size data)) as Hq.
  unfold assembled_size in *.
  split_and!.
  - exists (wave_file 1 2 16000 (pad_even data)).
    split; [apply frame_assemble_padded | apply wave_file_length].
  - destruct (quality_gate (44 + length (pad_even data))).
    + split; [intros _ | reflexivity].
      assert (1000 <= 44 + length (pad_even data))%nat by now apply Hq. lia.
    + rewrite app_nil_r. split.
      * intros H. apply (f_equal length) in H. rewrite length_app in H.
        cbn [length] in H. lia.
      * intros H. assert (true = false); [| discriminate].
        symmetry. apply Hq. lia.
  - destruct (quality_gate (44 + length (pad_even data))).
    + split.
      * intros H. apply (f_equal length) in H. rewrite length_app in H.
        cbn [length] in H. lia.
      * intros H.
        assert (1000 <= 44 + length (pad_even data))%nat by now apply Hq. lia.
    + rewrite app_nil_r. split; [intros _ | reflexivity].
      destruct (Nat.lt_ge_cases (length (pad_even data)) 956) as [? | Hge];
        [assumption |].
      assert (false = true); [| discriminate]. apply Hq. lia.
Qed.

(** A chunk of 955 bytes: padded to 956, assembled to 1000, let through. *)
Lemma gate_measures_container_witness :
  reaches_gate spoken_chunk = true
  /\ (whisper_calls (snd (process_chunk (pcm 955) spoken_chunk initial_world))
      = whisper_calls initial_world ++ [wav_file (ck_id spoken_chunk)]
      <-> (956 <= length (pad_even (pcm 955)))%nat).
Proof.
  split; [reflexivity |].
  apply (gate_measures_container (pcm 955) spoken_chunk initial_world).
  reflexivity.
Defined.

(** C3: a session receives the chunks [chunks], in this order, and then
    possibly the exception that closes it.  Whatever the chunks are, the
    text messages the session sends are the texts of the chunks that pass
    the quality gate and yield text that is not blank, one message for each
    such chunk, in the order of the chunks: a chunk the gate turns away, or
    whose text is empty or blank, adds no message; and the peer gets those
    of the messages the transport takes.  Hence, if [k] of the chunks pass
    the gate and each of these yields text that is not blank, the session
    sends exactly [k] messages, the texts of these chunks in their order. *)
Theorem streaming_messages_in_order (chunks : list (bytes * chunk_env))
    (ending : option exn) (w : world) :
  sent (snd (websocket_endpoint (session_events chunks ending) w))
  = sent w
    ++ map (fun c => chunk_text (snd c))
           (List.filter
              (fun c => passes_gate (fst c) (snd c) && yields_text (snd c))
              chunks)
  /\ delivered (snd (websocket_endpoint (session_events chunks ending) w))
     = delivered w
       ++ map (fun c => chunk_text (snd c))
              (List.filter
                 (fun c => passes_gate (fst c) (snd c)
                           && yields_text (snd c) && send_ok (snd c))
                 chunks)
  /\ (forall k : nat,
        length (List.filter (fun c => passes_gate (fst c) (snd c)) chunks) = k ->
        (forall c, In c chunks -> passes_gate (fst c) (snd c) = true ->
                   yields_text (snd c) = true) ->
        exists msgs,
          sent (snd (websocket_endpoint (session_events chunks ending) w))
          = sent w ++ msgs
          /\ length msgs = k
          /\ msgs = map (fun c => chunk_text (snd c))
                        (List.filter (fun c => passes_gate (fst c) (snd c))
                                     chunks)).
Proof.
  destruct (websocket_endpoint_session chunks ending w)
    as (w' & E & Hsent & Hdel).
  rewrite E. cbn [snd]. unfold messages, deliveries, delivers, emits in *.
  split_and!.
  - exact Hsent.
  - exact Hdel.
  - intros k Hk Hall.
    assert (Hfilter :
      List.filter
        (fun c => passes_gate (fst c) (snd c) && yields_text (snd c)) chunks
      = List.filter (fun c => passes_gate (fst c) (snd c)) chunks).
    { apply List.filter_ext_in. intros c Hin.
      destruct (passes_gate (fst c) (snd c)) eqn:Hp; [| reflexivity].
      now rewrite (Hall c Hin Hp). }
    rewrite Hfilter in Hsent.
    eexists. split_and!; [exact Hsent | | reflexivity].
    rewrite length_map. exact Hk.
Qed.

(** Four chunks: spoken, too small, blank (it passes the gate and the model
    answers with a space), spoken (955 bytes, assembled to 1000); then the
    peer disconnects.  Two messages, those of the first and the last. *)
Lemma streaming_messages_in_order_witness :
  sent (snd (websocket_endpoint
               (session_events
                  [(pcm 2000, spoken_chunk); (pcm 10, spoken_chunk);
                   (pcm 2000, silent_chunk); (pcm 955, spoken_chunk)]
                  (Some WebSocketDisconnect))
               initial_world))
  = sent initial_world
    ++ [of_ascii " good  morning"; of_ascii " good  morning"].
Proof.
  rewrite (proj1 (streaming_messages_in_order
                    [(pcm 2000, spoken_chunk); (pcm 10, spoken_chunk);
                     (pcm 2000, silent_chunk); (pcm 955, spoken_chunk)]
                    (Some WebSocketDisconnect) initial_world)).
  vm_compute. reflexivity.
Defined.

(** C7: when the processing of a chunk meets a fault (of the model, or any
    other within the step), the fault is caught and printed, the step ends
    without an exception, nothing of the chunk reaches the peer (and for a
    fault of the model no text is handed to [send_text] at all), and the
    loop goes on with what is received next; a session ends [CLOSED]
    exactly when [receive_bytes] raises, whatever faults its chunks met,
    and the chunks after the faulty one are processed like the ones before
    it. *)
Theorem chunk_failure_keeps_session (data : bytes) (env : chunk_env)
    (e : exn) (before after : list (bytes * chunk_env))
    (ending : option exn) (w : world) :
  chunk_fault data env = Some e ->
  (exists c w', process_chunk data env w = (c, w')
                /\ (c = Val tt \/ c = Exit tt)
                /\ In (LogWsProcessError e) (log w')
                /\ delivered w' = delivered w
                /\ (ck_whisper env = Err e -> sent w' = sent w))
  /\ (forall rest,
        receive_loop (RecvBytes data env :: rest) w
        = receive_loop rest (after_chunk data env w))
  /\ fst (websocket_endpoint
            (session_events (before ++ (data, env) :: after) ending) w)
     = match ending with Some _ => CLOSED | None => AWAITING_CHUNK end
  /\ delivered
       (snd (websocket_endpoint
               (session_events (before ++ (data, env) :: after) ending) w))
     = delivered w ++ deliveries before ++ deliveries after.
Proof.
  intros Hfault.
  pose proof (fault_no_delivery data env e Hfault) as Hdeliv.
  split_and!.
  - destruct (process_chunk_spec data env w)
      as (c & w' & E & Hc & (_ & _ & Hsent & Hdel & _ & Hlog) & _).
    exists c, w'. rewrite Hdeliv, app_nil_r in Hdel.
    split_and!; auto.
    + destruct Hc as [? | [? _]]; auto.
    + intros Hmodel.
      rewrite (model_fault_no_message data env e Hmodel), app_nil_r in Hsent.
      exact Hsent.
  - intros rest. apply receive_loop_chunk.
  - destruct (websocket_endpoint_session
                (before ++ (data, env) :: after) ending w) as (w' & E & _).
    now rewrite E.
  - destruct (websocket_endpoint_session
                (before ++ (data, env) :: after) ending w)
      as (w' & E & _ & Hd).
    rewrite E. cbn [snd]. rewrite Hd, deliveries_app. f_equal. f_equal.
    change ((data, env) :: after) with ([(data, env)] ++ after).
    rewrite deliveries_app. unfold deliveries at 1.
    cbn [List.filter fst snd]. now rewrite Hdeliv.
Qed.

(** The model fails on the second of three chunks; the session is still
    awaiting chunks and the texts of the first and the third reached the
    peer. *)
Lemma chunk_failure_keeps_session_witness :
  chunk_fault (pcm 2000) failing_chunk
  = Some (RuntimeError (of_ascii "CUDA out of memory"))
  /\ fst (websocket_endpoint
            (session_events
               ([(pcm 2000, spoken_chunk)] ++ (pcm 2000, failing_chunk)
                :: [(pcm 2000, spoken_chunk)]) None) initial_world)
     = AWAITING_CHUNK
  /\ delivered
       (snd (websocket_endpoint
               (session_events
                  ([(pcm 2000, spoken_chunk)] ++ (pcm 2000, failing_chunk)
                   :: [(pcm 2000, spoken_chunk)]) None) initial_world))
     = delivered initial_world ++ deliveries [(pcm 2000, spoken_chunk)]
       ++ deliveries [(pcm 2000, spoken_chunk)].
Proof.
  split; [vm_compute; reflexivity |].
  apply (chunk_failure_keeps_session (pcm 2000) failing_chunk
           (RuntimeError (of_ascii "CUDA out of memory"))
           [(pcm 2000, spoken_chunk)] [(pcm 2000, spoken_chunk)]
           None initial_world).
  vm_compute. reflexivity.
Defined.

(** ** The upload handler *)

Lemma upload_try_spec (env : upload_env) (w : world) :
  exists r w1,
    upload_try env w = (Exit r, w1)
    /\ sent w1 = sent w
    /\ (exists extra, log w1 = log w ++ extra)
    /\ upload_outcome env w r w1.
Proof.
  unfold upload_try, upload_outcome.
  unfold try_except, bind, lift, ret, raise, exit_, when, write_file,
    path_exists, run_ffmpeg, model_transcribe, print.
  destruct (up_save env) as [| | e1 [b1 |]]; run_step.
  1: destruct (up_ffmpeg env) as [e2 | rc err [out |]]; run_step;
     try (destruct (rc =? 0)%Z; cbn [negb]; run_step;
          try (destruct (up_whisper env) as [segments | e3]; run_step)).
  all: do 2 eexists; (split; [reflexivity |]); run_step;
    split_and!; try reflexivity; try log_grows.
  all: rewrite ?in_app_iff; cbn [In]; auto.
Qed.

(** The cleanup invokes nobody and only adds to the log. *)
Lemma upload_outcome_later (env : upload_env) (w w1 w2 : world)
    (r : response) (extra : list log_entry) :
  upload_outcome env w r w1 ->
  ffmpeg_calls w2 = ffmpeg_calls w1 ->
  whisper_calls w2 = whisper_calls w1 ->
  log w2 = log w1 ++ extra ->
  upload_outcome env w r w2.
Proof.
  unfold upload_outcome. intros H Hff Hwh Hlog. rewrite Hff, Hwh, Hlog.
  destruct (up_save env); auto.
  destruct H as [H1 H2]. split; [exact H1 |].
  destruct (up_ffmpeg env) as [| rc err out]; auto.
  destruct (rc =? 0)%Z; auto.
  destruct H2 as (? & ? & ?). split_and!; auto.
  apply in_or_app. now left.
Qed.

Lemma transcribe_audio_spec (env : upload_env) (w : world) :
  exists r w',
    transcribe_audio env w = (Exit r, w')
    /\ sent w' = sent w
    /\ upload_outcome env w r w'
    /\ gone_or_warned LogWarnRemove (input_path (up_file_id env))
         (up_rm_input env) w'
    /\ gone_or_warned LogWarnRemove (audio_path (up_file_id env))
         (up_rm_audio env) w'.
Proof.
  destruct (upload_try_spec env w) as (r & w1 & Etry & Hsent & _ & Hout).
  destruct (cleanup_two (R := response) LogWarnRemove
              (input_path (up_file_id env)) (up_rm_input env)
              (audio_path (up_file_id env)) (up_rm_audio env) w1)
    as (w2 & x2 & Efin & Hs2 & _ & Hf2 & Hw2 & Hl2 & _ & Hin & Hau).
  exists r, w2. unfold transcribe_audio, try_finally. rewrite Etry, Efin.
  split_and!; auto; try congruence.
  now apply (upload_outcome_later env w w1 w2 r x2).
Qed.

(** C6: after a one-shot request, and after the processing of a chunk, on
    every way out, each temporary file of the step is gone from the
    directory unless its removal failed; a removal that fails is printed as
    a warning and nothing more: the request still ends with its response,
    the chunk's step still ends normally or by [continue], never with an
    exception. *)
Theorem temp_files_removed (request : upload_env) (data : bytes)
    (env : chunk_env) (w : world) :
  (exists r w',
      transcribe_audio request w = (Exit r, w')
      /\ (fs w' !! input_path (up_file_id request) = None
          \/ (up_rm_input request = false
              /\ In (LogWarnRemove (input_path (up_file_id request))) (log w')))
      /\ (fs w' !! audio_path (up_file_id request) = None
          \/ (up_rm_audio request = false
              /\ In (LogWarnRemove (audio_path (up_file_id request))) (log w'))))
  /\ (exists c w',
        process_chunk data env w = (c, w')
        /\ (c = Val tt \/ c = Exit tt)
        /\ (fs w' !! temp_file (ck_id env) = None
            \/ (ck_rm_raw env = false
                /\ In (LogWsWarnRemove (temp_file (ck_id env))) (log w')))
        /\ (fs w' !! wav_file (ck_id env) = None
            \/ (ck_rm_wav env = false
                /\ In (LogWsWarnRemove (wav_file (ck_id env))) (log w')))).
Proof.
  split.
  - destruct (transcribe_audio_spec request w)
      as (r & w' & E & _ & _ & Hin & Hau).
    exists r, w'. split_and!; assumption.
  - destruct (process_chunk_spec data env w)
      as (c & w' & E & Hc & _ & Hraw & Hwav).
    exists c, w'. split_and!; try assumption.
    destruct Hc as [? | [? _]]; auto.
Qed.

(** C8: when the upload is saved, the transcoder exits with status 0 and
    the model answers, the response carries the texts of the model's
    segments joined by one space, in the model's order, as they are, also
    when the result is empty or blank; the transcoder and the model were
    each invoked once. *)
Theorem upload_success_joins_segments (env : upload_env) (w : world)
    (stderr : str) (output : option bytes) (segments : list str) :
  up_save env = Written ->
  up_ffmpeg env = Completed 0 stderr output ->
  up_whisper env = Ok segments ->
  exists w',
    transcribe_audio env w
    = (Exit (Transcription (join (of_ascii " ") segments)), w')
    /\ ffmpeg_calls w'
       = ffmpeg_calls w
         ++ [(input_path (up_file_id env), audio_path (up_file_id env))]
    /\ whisper_calls w' = whisper_calls w ++ [audio_path (up_file_id env)].
Proof.
  intros Hsave Hff Hwh.
  destruct (transcribe_audio_spec env w) as (r & w' & E & _ & Hout & _).
  unfold upload_outcome in Hout. rewrite Hsave, Hff, Hwh in Hout.
  cbn [Z.eqb] in Hout. destruct Hout as (Hcalls & Hmodel & ->).
  exists w'. split_and!; assumption.
Qed.

Lemma upload_success_joins_segments_witness :
  up_save spoken_upload = Written
  /\ exists w',
       transcribe_audio spoken_upload initial_world
       = (Exit (Transcription (of_ascii " Hello  world")), w').
Proof.
  split; [reflexivity |].
  destruct (upload_success_joins_segments spoken_upload initial_world []
              (Some (wave_file 1 2 16000 (pcm 8)))
              [of_ascii " Hello"; of_ascii " world"]
              eq_refl eq_refl eq_refl) as (w' & E & _).
  exists w'. exact E.
Defined.

(** C1, as the handler has it: the check after the save is whether the file
    exists, not whether it holds anything.  A saved file that is not there
    is answered with the save failure, and neither the transcoder nor the
    model is invoked; a file that was saved, empty or not, goes to the
    transcoder; a save that raises is answered with its message. *)
Theorem upload_check_is_existence (env : upload_env) (w : world) :
  exists r w',
    transcribe_audio env w = (Exit r, w')
    /\ match up_save env with
       | Vanished =>
           r = ErrorBody save_failed_msg
           /\ ffmpeg_calls w' = ffmpeg_calls w
           /\ whisper_calls w' = whisper_calls w
       | Written =>
           ffmpeg_calls w'
           = ffmpeg_calls w
             ++ [(input_path (up_file_id env), audio_path (up_file_id env))]
       | WriteFailed e _ =>
           r = ErrorBody500 (exn_str e)
           /\ ffmpeg_calls w' = ffmpeg_calls w
           /\ whisper_calls w' = whisper_calls w
       end.
Proof.
  destruct (transcribe_audio_spec env w) as (r & w' & E & _ & Hout & _).
  exists r, w'. split; [exact E |].
  unfold upload_outcome in Hout.
  destruct (up_save env); try exact Hout. exact (proj1 Hout).
Qed.

(** C1 fails on an empty upload: the file is saved, the transcoder is
    invoked on it, and the answer is the transcoder's failure, not the save
    failure. *)
Lemma empty_upload_reaches_transcoder :
  up_content empty_upload = []
  /\ fst (transcribe_audio empty_upload initial_world)
     = Exit (ErrorBody500 ffmpeg_failed_msg)
  /\ fst (transcribe_audio empty_upload initial_world)
     <> Exit (ErrorBody save_failed_msg)
  /\ ffmpeg_calls (snd (transcribe_audio empty_upload initial_world))
     = [(input_path (up_file_id empty_upload),
         audio_path (up_file_id empty_upload))].
Proof.
  split_and!.
  - reflexivity.
  - vm_compute. reflexivity.
  - vm_compute. discriminate.
  - vm_compute. reflexivity.
Qed.

(** C2, as the handler has it: when the transcoder exits with a status
    other than 0, the response is the error with status 500 whose payload
    is the fixed message of the conversion failure; the transcoder's
    diagnostic text is printed to the log; the model is not invoked. *)
Theorem transcoder_failure_fixed_message (env : upload_env) (w : world)
    (returncode : Z) (stderr : str) (output : option bytes) :
  up_save env = Written ->
  up_ffmpeg env = Completed returncode stderr output ->
  returncode <> 0%Z ->
  exists w',
    transcribe_audio env w = (Exit (ErrorBody500 ffmpeg_failed_msg), w')
    /\ In (LogPrint stderr) (log w')
    /\ whisper_calls w' = whisper_calls w.
Proof.
  intros Hsave Hff Hrc.
  destruct (transcribe_audio_spec env w) as (r & w' & E & _ & Hout & _).
  unfold upload_outcome in Hout. rewrite Hsave, Hff in Hout.
  apply Z.eqb_neq in Hrc. rewrite Hrc in Hout.
  destruct Hout as (_ & -> & Hwh & Hlog).
  exists w'. split_and!; assumption.
Qed.

Lemma transcoder_failure_fixed_message_witness :
  up_ffmpeg unreadable_upload
  = Completed 1 (of_ascii "moov atom not found") None
  /\ exists w',
       transcribe_audio unreadable_upload initial_world
       = (Exit (ErrorBody500 ffmpeg_failed_msg), w')
       /\ In (LogPrint (of_ascii "moov atom not found")) (log w')
       /\ whisper_calls w' = whisper_calls initial_world.
Proof.
  split; [reflexivity |].
  apply (transcoder_failure_fixed_message unreadable_upload initial_world 1
           (of_ascii "moov atom not found") None eq_refl eq_refl).
  discriminate.
Defined.

(** C2 fails where the transcoder says why it failed: the payload of the
    response is the fixed message, and the diagnostic text is not in it. *)
Lemma transcoder_stderr_not_in_payload :
  up_ffmpeg unreadable_upload
  = Completed 1 (of_ascii "moov atom not found") None
  /\ fst (transcribe_audio unreadable_upload initial_world)
     = Exit (ErrorBody500 ffmpeg_failed_msg)
  /\ contains (of_ascii "moov atom not found") ffmpeg_failed_msg = false.
Proof.
  split_and!.
  - reflexivity.
  - vm_compute. reflexivity.
  - vm_compute. reflexivity.
Qed.

(** * Further properties of the handlers *)

(** ** Files the handlers leave alone *)

Section Frame.
Context {R : Type} (warn : path -> log_entry).

Lemma remove_if_present_frame (p q : path) (ok : bool) (w : world) :
  q <> p ->
  fs (snd (remove_if_present (R := R) warn (p, ok) w)) !! q = fs w !! q.
Proof.
  intros Hq.
  unfold remove_if_present, bind, path_exists, when, try_except, remove,
    print, ret.
  cbn [fst snd].
  destruct (fs w !! p) eqn:Hp; [destruct ok |]; rewrite ?Hp; run_step;
    other_paths; reflexivity.
Qed.

(** A removal that fails leaves the directory as it was. *)
Lemma remove_if_present_failed (p : path) (w : world) :
  fs (snd (remove_if_present (R := R) warn (p, false) w)) = fs w.
Proof.
  unfold remove_if_present, bind, path_exists, when, try_except, remove,
    print, ret.
  cbn [fst snd].
  destruct (fs w !! p) eqn:Hp; rewrite ?Hp; reflexivity.
Qed.

Lemma cleanup_two_unfold (p1 : path) (ok1 : bool) (p2 : path) (ok2 : bool)
    (w : world) :
  cleanup (R := R) warn [(p1, ok1); (p2, ok2)] w
  = (Val tt,
     snd (remove_if_present (R := R) warn (p2, ok2)
            (snd (remove_if_present (R := R) warn (p1, ok1) w)))).
Proof.
  destruct (remove_if_present_spec (R := R) warn p1 ok1 w)
    as (w1 & x1 & E1 & _).
  destruct (remove_if_present_spec (R := R) warn p2 ok2 w1)
    as (w2 & x2 & E2 & _).
  unfold cleanup. cbn [for_each].
  unfold bind at 1. rewrite E1. cbn [snd].
  unfold bind at 1. rewrite E2. reflexivity.
Qed.

Lemma cleanup_two_frame (p1 : path) (ok1 : bool) (p2 : path) (ok2 : bool)
    (q : path) (w : world) :
  q <> p1 -> q <> p2 ->
  fs (snd (cleanup (R := R) warn [(p1, ok1); (p2, ok2)] w)) !! q = fs w !! q.
Proof.
  intros H1 H2. rewrite cleanup_two_unfold. cbn [snd].
  rewrite remove_if_present_frame by assumption.
  now rewrite remove_if_present_frame.
Qed.

Lemma cleanup_two_failed (p1 p2 : path) (w : world) :
  fs (snd (cleanup (R := R) warn [(p1, false); (p2, false)] w)) = fs w.
Proof.
  rewrite cleanup_two_unfold. cbn [snd].
  now rewrite !remove_if_present_failed.
Qed.
End Frame.

Lemma try_finally_world {R A} (body : M R A) (fin : M R unit) (w : world) :
  (exists w2, fin (snd (body w)) = (Val tt, w2)) ->
  try_finally body fin w = (fst (body w), snd (fin (snd (body w)))).
Proof.
  intros [w2 E]. unfold try_finally.
  destruct (body w) as [c w1]. cbn [fst snd] in *. now rewrite E.
Qed.

Lemma process_chunk_unfold (data : bytes) (env : chunk_env) (w : world) :
  process_chunk data env w
  = (fst (chunk_try data env w),
     snd (cleanup (R := unit) LogWsWarnRemove
            [(temp_file (ck_id env), ck_rm_raw env);
             (wav_file (ck_id env), ck_rm_wav env)]
            (snd (chunk_try data env w)))).
Proof.
  unfold process_chunk. apply try_finally_world.
  rewrite cleanup_two_unfold. eauto.
Qed.

Lemma transcribe_audio_unfold (env : upload_env) (w : world) :
  transcribe_audio env w
  = (fst (upload_try env w),
     snd (cleanup (R := response) LogWarnRemove
            [(input_path (up_file_id env), up_rm_input env);
             (audio_path (up_file_id env), up_rm_audio env)]
            (snd (upload_try env w)))).
Proof.
  unfold transcribe_audio. apply try_finally_world.
  rewrite cleanup_two_unfold. eauto.
Qed.

Lemma chunk_try_frame (data : bytes) (env : chunk_env) (w : world) (q : path) :
  q <> temp_file (ck_id env) -> q <> wav_file (ck_id env) ->
  fs (snd (chunk_try data env w)) !! q = fs w !! q.
Proof.
  intros Hraw Hwav. unfold chunk_try.
  rewrite frame_assemble_padded.
  unfold try_except, bind, lift, ret, raise, exit_, when, write_file, getsize,
    model_transcribe, send_text, print.
  destruct (ck_raw_write env) as [| | e1 [b1 |]]; run_step;
  destruct (ck_wav_write env) as [| | e2 [b2 |]]; run_step;
    try destruct (too_small _); run_step;
    try (destruct (ck_whisper env) as [segments | e3]; run_step;
         try destruct (truthy (strip (join (of_ascii " ") segments)));
         try (destruct (ck_send env) as [[] | e4]; run_step)).
  all: cbn [when ret]; run_step; other_paths; reflexivity.
Qed.

Lemma upload_try_frame (env : upload_env) (w : world) (q : path) :
  q <> input_path (up_file_id env) -> q <> audio_path (up_file_id env) ->
  fs (snd (upload_try env w)) !! q = fs w !! q.
Proof.
  intros Hin Hau. unfold upload_try.
  unfold try_except, bind, lift, ret, raise, exit_, when, write_file,
    path_exists, run_ffmpeg, model_transcribe, print.
  destruct (up_save env) as [| | e1 [b1 |]]; run_step.
  1: destruct (up_ffmpeg env) as [e2 | rc err [out |]]; run_step;
     try (destruct (rc =? 0)%Z; cbn [negb]; run_step;
          try (destruct (up_whisper env) as [segments | e3]; run_step)).
  all: cbn [negb ret]; run_step; other_paths; reflexivity.
Qed.

Lemma chunk_try_ctl (data : bytes) (env : chunk_env) (w : world) :
  fst (chunk_try data env w) = if skipped data env then Exit tt else Val tt.
Proof.
  unfold chunk_try, skipped, reaches_gate.
  rewrite frame_assemble_padded.
  unfold try_except, bind, lift, ret, raise, exit_, when, write_file, getsize,
    model_transcribe, send_text, print.
  destruct (ck_raw_write env) as [| | e1 [b1 |]]; run_step;
  destruct (ck_wav_write env) as [| | e2 [b2 |]]; run_step;
    rewrite ?assembled_too_small;
    destruct (quality_gate (assembled_size data)); cbn [negb andb]; run_step;
    try (destruct (ck_whisper env) as [segments | e3]; run_step;
         try destruct (truthy (strip (join (of_ascii " ") segments)));
         try (destruct (ck_send env) as [[] | e4]; run_step)).
  all: reflexivity.
Qed.

Lemma chunk_try_written (data : bytes) (env : chunk_env) (w : world) :
  ck_raw_write env = Written ->
  ck_wav_write env = Written ->
  fs (snd (chunk_try data env w))
  = <[wav_file (ck_id env) := wave_file 1 2 16000 (pad_even data)]>
      (<[temp_file (ck_id env) := data]> (fs w)).
Proof.
  intros Hraw Hwav. unfold chunk_try.
  rewrite frame_assemble_padded, Hraw, Hwav.
  unfold try_except, bind, lift, ret, raise, exit_, when, write_file, getsize,
    model_transcribe, send_text, print.
  run_step.
  destruct (too_small _); run_step;
    try (destruct (ck_whisper env) as [segments | e3]; run_step;
         try destruct (truthy (strip (join (of_ascii " ") segments)));
         try (destruct (ck_send env) as [[] | e4]; run_step)).
  all: reflexivity.
Qed.

(** ** File names *)

Lemma wav_file_prefix (id : str) :
  exists rest, wav_file id = of_ascii "temp_ws_" ++ rest.
Proof.
  unfold wav_file, temp_file, replace.
  change (of_ascii ".raw") with [46; 114; 97; 119]%N at 1.
  cbv iota.
  change (of_ascii "temp_ws_") with [116; 101; 109; 112; 95; 119; 115; 95]%N.
  cbn [app replace_from startswith N.eqb Pos.eqb andb].
  eexists. reflexivity.
Qed.

Lemma temp_wav_distinct (id1 id2 : str) :
  dot_free id2 -> temp_file id1 <> wav_file id2.
Proof.
  intros Hid H. rewrite (wav_file_of_hex id2 Hid) in H. unfold temp_file in H.
  apply (f_equal (@rev N)) in H. rewrite !rev_app_distr in H.
  cbn in H. discriminate H.
Qed.

(** X1: the two temporary files of a request never coincide, whatever the
    identifiers, distinct identifiers give distinct names, and no name of a
    request is a name the streaming handler uses. *)
Theorem upload_names_distinct (id1 id2 : str) :
  input_path id1 <> audio_path id2
  /\ (input_path id1 = input_path id2 <-> id1 = id2)
  /\ (audio_path id1 = audio_path id2 <-> id1 = id2)
  /\ input_path id1 <> temp_file id2 /\ input_path id1 <> wav_file id2
  /\ audio_path id1 <> temp_file id2 /\ audio_path id1 <> wav_file id2.
Proof.
  destruct (wav_file_prefix id2) as [rest Hwav].
  unfold input_path, audio_path, temp_file. rewrite Hwav.
  split_and!; try (cbn; intros H; discriminate H).
  - split; [| now intros ->].
    intros H. apply app_inv_head in H. now apply app_inv_tail in H.
  - split; [| now intros ->].
    intros H. apply app_inv_head in H. now apply app_inv_tail in H.
Qed.

(** X2: for identifiers without a dot, as the digits of a uuid are, the
    container's name is the raw file's name with the extension [.wav] for
    [.raw]; no raw file has the name of a container, and distinct
    identifiers give distinct raw files and distinct containers. *)
Theorem streaming_names_distinct (id1 id2 : str) :
  dot_free id1 -> dot_free id2 ->
  wav_file id1 = of_ascii "temp_ws_" ++ id1 ++ of_ascii ".wav"
  /\ temp_file id1 <> wav_file id2
  /\ (temp_file id1 = temp_file id2 <-> id1 = id2)
  /\ (wav_file id1 = wav_file id2 <-> id1 = id2).
Proof.
  intros H1 H2. split_and!.
  - now apply wav_file_of_hex.
  - now apply temp_wav_distinct.
  - split; [| now intros ->]. unfold temp_file.
    intros H. apply app_inv_head in H. now apply app_inv_tail in H.
  - split; [| now intros ->].
    rewrite (wav_file_of_hex id1 H1), (wav_file_of_hex id2 H2).
    intros H. apply app_inv_head in H. now apply app_inv_tail in H.
Qed.

Lemma streaming_names_distinct_witness :
  dot_free (of_ascii "0f3a") /\ dot_free (of_ascii "7c1e")
  /\ temp_file (of_ascii "0f3a") <> wav_file (of_ascii "7c1e").
Proof.
  assert (H1 : dot_free (of_ascii "0f3a"))
    by (repeat constructor; discriminate).
  assert (H2 : dot_free (of_ascii "7c1e"))
    by (repeat constructor; discriminate).
  split; [exact H1 |]. split; [exact H2 |].
  apply (streaming_names_distinct (of_ascii "0f3a") (of_ascii "7c1e") H1 H2).
Defined.

(** ** What stays on disk *)

(** X3: a one-shot request reads and changes no file but its own two: any
    other path holds after the request what it held before, on every way
    out. *)
Theorem upload_touches_only_its_files (env : upload_env) (w : world)
    (q : path) :
  q <> input_path (up_file_id env) ->
  q <> audio_path (up_file_id env) ->
  fs (snd (transcribe_audio env w)) !! q = fs w !! q.
Proof.
  intros Hin Hau. rewrite transcribe_audio_unfold. cbn [snd].
  rewrite cleanup_two_frame by assumption.
  now apply upload_try_frame.
Qed.

Lemma upload_touches_only_its_files_witness :
  of_ascii "notes.txt" <> input_path (up_file_id spoken_upload)
  /\ fs (snd (transcribe_audio spoken_upload
                (set_fs (<[of_ascii "notes.txt" := [x01]]> ∅) initial_world)))
       !! of_ascii "notes.txt"
     = fs (set_fs (<[of_ascii "notes.txt" := [x01]]> ∅) initial_world)
       !! of_ascii "notes.txt".
Proof.
  split; [vm_compute; discriminate |].
  apply (upload_touches_only_its_files spoken_upload);
    vm_compute; discriminate.
Defined.

(** X4: the step of a chunk changes no file but its raw file and its
    container: any other path holds after the step what it held before, on
    every way out. *)
Theorem chunk_touches_only_its_files (data : bytes) (env : chunk_env)
    (w : world) (q : path) :
  q <> temp_file (ck_id env) ->
  q <> wav_file (ck_id env) ->
  fs (snd (process_chunk data env w)) !! q = fs w !! q.
Proof.
  intros Hraw Hwav. rewrite process_chunk_unfold. cbn [snd].
  rewrite cleanup_two_frame by assumption.
  now apply chunk_try_frame.
Qed.

Lemma chunk_touches_only_its_files_witness :
  of_ascii "notes.txt" <> temp_file (ck_id spoken_chunk)
  /\ fs (snd (process_chunk (pcm 2000) spoken_chunk
                (set_fs (<[of_ascii "notes.txt" := [x01]]> ∅) initial_world)))
       !! of_ascii "notes.txt"
     = fs (set_fs (<[of_ascii "notes.txt" := [x01]]> ∅) initial_world)
       !! of_ascii "notes.txt".
Proof.
  split; [vm_compute; discriminate |].
  apply (chunk_touches_only_its_files (pcm 2000) spoken_chunk);
    vm_compute; discriminate.
Defined.

(** X5: when both files of a chunk are written and neither removal
    succeeds, both files stay: the raw file holds the chunk as received,
    without the padding, the container holds the assembled artifact, and a
    warning is printed for each. *)
Theorem failed_removal_leaves_files (data : bytes) (env : chunk_env)
    (w : world) :
  dot_free (ck_id env) ->
  ck_raw_write env = Written ->
  ck_wav_write env = Written ->
  ck_rm_raw env = false ->
  ck_rm_wav env = false ->
  fs (snd (process_chunk data env w)) !! temp_file (ck_id env) = Some data
  /\ fs (snd (process_chunk data env w)) !! wav_file (ck_id env)
     = Some (wave_file 1 2 16000 (pad_even data))
  /\ In (LogWsWarnRemove (temp_file (ck_id env)))
        (log (snd (process_chunk data env w)))
  /\ In (LogWsWarnRemove (wav_file (ck_id env)))
        (log (snd (process_chunk data env w))).
Proof.
  intros Hid Hraw Hwav Hrm1 Hrm2.
  assert (Hfs : fs (snd (process_chunk data env w))
                = <[wav_file (ck_id env) := wave_file 1 2 16000 (pad_even data)]>
                    (<[temp_file (ck_id env) := data]> (fs w))).
  { rewrite process_chunk_unfold. cbn [snd]. rewrite Hrm1, Hrm2.
    rewrite cleanup_two_failed. now apply chunk_try_written. }
  assert (Hraw' : fs (snd (process_chunk data env w)) !! temp_file (ck_id env)
                  = Some data).
  { rewrite Hfs. rewrite lookup_insert_ne.
    - apply lookup_insert_eq.
    - intros H. symmetry in H. revert H. now apply temp_wav_distinct. }
  assert (Hwav' : fs (snd (process_chunk data env w)) !! wav_file (ck_id env)
                  = Some (wave_file 1 2 16000 (pad_even data))).
  { rewrite Hfs. apply lookup_insert_eq. }
  destruct (process_chunk_spec data env w) as (c & w' & E & _ & _ & G1 & G2).
  unfold gone_or_warned in G1, G2.
  rewrite E in Hraw', Hwav' |- *. cbn [snd] in Hraw', Hwav' |- *.
  split_and!; auto.
  - destruct G1 as [G1 | [_ G1]]; [| exact G1].
    pose proof (eq_trans (eq_sym G1) Hraw') as X. discriminate X.
  - destruct G2 as [G2 | [_ G2]]; [| exact G2].
    pose proof (eq_trans (eq_sym G2) Hwav') as X. discriminate X.
Qed.

Lemma failed_removal_leaves_files_witness :
  ck_rm_raw leaking_chunk = false
  /\ fs (snd (process_chunk [x01; x02; x03] leaking_chunk initial_world))
       !! temp_file (ck_id leaking_chunk)
     = Some [x01; x02; x03].
Proof.
  split; [reflexivity |].
  apply (failed_removal_leaves_files [x01; x02; x03] leaking_chunk
           initial_world); try reflexivity.
  repeat constructor; discriminate.
Defined.

(** ** Whole sessions *)

Lemma receive_loop_run (chunks : list (bytes * chunk_env))
    (ending : option exn) :
  forall w : world,
    receive_loop (session_events chunks ending) w
    = (match ending with Some e => Raise e | None => Val tt end,
       run_chunks chunks w).
Proof.
  induction chunks as [| [data env] chunks IH]; intros w.
  - destruct ending; reflexivity.
  - change (session_events ((data, env) :: chunks) ending)
      with (RecvBytes data env :: session_events chunks ending).
    rewrite receive_loop_chunk. apply IH.
Qed.

Lemma receive_loop_cut (chunks : list (bytes * chunk_env)) (e : exn)
    (rest : list recv_event) :
  forall w : world,
    receive_loop (map chunk_event chunks ++ RecvRaised e :: rest) w
    = (Raise e, run_chunks chunks w).
Proof.
  induction chunks as [| [data env] chunks IH]; intros w.
  - reflexivity.
  - change (map chunk_event ((data, env) :: chunks) ++ RecvRaised e :: rest)
      with (RecvBytes data env
            :: (map chunk_event chunks ++ RecvRaised e :: rest)).
    rewrite receive_loop_chunk. apply IH.
Qed.

Lemma run_chunks_log (chunks : list (bytes * chunk_env)) :
  forall w : world, exists extra, log (run_chunks chunks w) = log w ++ extra.
Proof.
  induction chunks as [| [data env] chunks IH]; intros w.
  - exists []. cbn. now rewrite app_nil_r.
  - cbn [run_chunks fold_left fst snd].
    destruct (IH (after_chunk data env w)) as [x Hx].
    fold (run_chunks chunks (after_chunk data env w)). rewrite Hx.
    unfold after_chunk.
    destruct (process_chunk_spec data env
                (snd (print (R := unit) (LogWsReceived (length data)) w)))
      as (c & w' & E & _ & (_ & _ & _ & _ & [y Hy] & _) & _).
    rewrite E. cbn [snd]. rewrite Hy. unfold print. cbn [snd log].
    rewrite <- !app_assoc. eexists. reflexivity.
Qed.

Lemma websocket_endpoint_cut (chunks : list (bytes * chunk_env)) (e : exn)
    (rest : list recv_event) (w : world) :
  websocket_endpoint (map chunk_event chunks ++ RecvRaised e :: rest) w
  = (CLOSED,
     snd (print (R := unit) (closing_entry e)
            (run_chunks chunks (snd (print (R := unit) LogWsConnected w))))).
Proof.
  unfold websocket_endpoint, bind, print. cbn [snd].
  rewrite receive_loop_cut. destruct e; reflexivity.
Qed.

Lemma websocket_endpoint_open (chunks : list (bytes * chunk_env)) (w : world) :
  websocket_endpoint (map chunk_event chunks) w
  = (AWAITING_CHUNK,
     run_chunks chunks (snd (print (R := unit) LogWsConnected w))).
Proof.
  unfold websocket_endpoint, bind, print. cbn [snd].
  pose proof (receive_loop_run chunks None) as H.
  unfold session_events in H. rewrite app_nil_r in H. rewrite H.
  reflexivity.
Qed.

(** X6: once [receive_bytes] raises, the session is over: whatever would
    have come after is not processed, the session is [CLOSED], and the last
    line printed is the notice of the disconnect, or the exception when it
    is any other; before it, the chunks received were processed in order. *)
Theorem nothing_after_close (chunks : list (bytes * chunk_env)) (e : exn)
    (rest : list recv_event) (w : world) :
  websocket_endpoint (map chunk_event chunks ++ RecvRaised e :: rest) w
  = websocket_endpoint (map chunk_event chunks ++ [RecvRaised e]) w
  /\ fst (websocket_endpoint
            (map chunk_event chunks ++ RecvRaised e :: rest) w) = CLOSED
  /\ log (snd (websocket_endpoint
                 (map chunk_event chunks ++ RecvRaised e :: rest) w))
     = log (run_chunks chunks (snd (print (R := unit) LogWsConnected w)))
       ++ [closing_entry e].
Proof.
  rewrite !websocket_endpoint_cut. split_and!; reflexivity.
Qed.

Lemma receive_loop_ffmpeg (events : list recv_event) :
  forall w : world,
    ffmpeg_calls (snd (receive_loop events w)) = ffmpeg_calls w.
Proof.
  induction events as [| [data env | e] events IH]; intros w.
  - reflexivity.
  - rewrite receive_loop_chunk, IH.
    now destruct (after_chunk_spec data env w) as (H & _).
  - reflexivity.
Qed.

(** X7: the streaming handler never invokes the transcoder, whatever it
    receives and however the session ends: the chunks are taken to be PCM
    already. *)
Theorem streaming_never_transcodes (events : list recv_event) (w : world) :
  ffmpeg_calls (snd (websocket_endpoint events w)) = ffmpeg_calls w.
Proof.
  unfold websocket_endpoint, bind, print. cbn [snd].
  match goal with
  | |- context [receive_loop events ?w0] =>
      pose proof (receive_loop_ffmpeg events w0) as H;
      destruct (receive_loop events w0) as [c w1]
  end.
  cbn [snd ffmpeg_calls] in H.
  destruct c as [a | [] | r]; cbn [snd ffmpeg_calls]; exact H.
Qed.

Lemma run_chunks_whisper (chunks : list (bytes * chunk_env)) :
  forall w : world,
    whisper_calls (run_chunks chunks w)
    = whisper_calls w
      ++ map (fun c => wav_file (ck_id (snd c)))
             (List.filter (fun c => passes_gate (fst c) (snd c)) chunks).
Proof.
  induction chunks as [| [data env] chunks IH]; intros w.
  - cbn. now rewrite app_nil_r.
  - cbn [run_chunks fold_left fst snd List.filter].
    fold (run_chunks chunks (after_chunk data env w)). rewrite IH.
    destruct (after_chunk_spec data env w) as (_ & Hwh & _). rewrite Hwh.
    destruct (passes_gate data env); cbn [map app fst snd];
      now rewrite <- ?app_assoc, ?app_nil_r.
Qed.

Lemma websocket_endpoint_session_run (chunks : list (bytes * chunk_env))
    (ending : option exn) (w : world) :
  websocket_endpoint (session_events chunks ending) w
  = (match ending with Some _ => CLOSED | None => AWAITING_CHUNK end,
     match ending with
     | Some e =>
         snd (print (R := unit) (closing_entry e)
                (run_chunks chunks (snd (print (R := unit) LogWsConnected w))))
     | None => run_chunks chunks (snd (print (R := unit) LogWsConnected w))
     end).
Proof.
  unfold session_events. destruct ending as [e |].
  - apply websocket_endpoint_cut.
  - rewrite app_nil_r. apply websocket_endpoint_open.
Qed.

(** X8: over a session the model is invoked once for each chunk that
    passes the quality gate, on the container of that chunk, in the order
    of the chunks, and for no other chunk; so the number of model
    invocations is the number of chunks that pass the gate. *)
Theorem model_once_per_passing_chunk (chunks : list (bytes * chunk_env))
    (ending : option exn) (w : world) :
  whisper_calls (snd (websocket_endpoint (session_events chunks ending) w))
  = whisper_calls w
    ++ map (fun c => wav_file (ck_id (snd c)))
           (List.filter (fun c => passes_gate (fst c) (snd c)) chunks)
  /\ length (whisper_calls
               (snd (websocket_endpoint (session_events chunks ending) w)))
     = (length (whisper_calls w)
        + length (List.filter (fun c => passes_gate (fst c) (snd c)) chunks))%nat.
Proof.
  rewrite websocket_endpoint_session_run. cbn [snd].
  assert (H : whisper_calls
                match ending with
                | Some e =>
                    snd (print (R := unit) (closing_entry e)
                           (run_chunks chunks
                              (snd (print (R := unit) LogWsConnected w))))
                | None =>
                    run_chunks chunks (snd (print (R := unit) LogWsConnected w))
                end
              = whisper_calls w
                ++ map (fun c => wav_file (ck_id (snd c)))
                     (List.filter (fun c => passes_gate (fst c) (snd c)) chunks)).
  { destruct ending; unfold print; cbn [snd whisper_calls];
      rewrite run_chunks_whisper; reflexivity. }
  split; [exact H |].
  rewrite H, length_app, length_map. reflexivity.
Qed.

Lemma process_chunk_frame (data : bytes) (env : chunk_env) (w : world)
    (q : path) :
  q <> temp_file (ck_id env) -> q <> wav_file (ck_id env) ->
  fs (snd (process_chunk data env w)) !! q = fs w !! q.
Proof.
  intros Hraw Hwav. rewrite process_chunk_unfold. cbn [snd].
  rewrite cleanup_two_frame by assumption.
  now apply chunk_try_frame.
Qed.

Lemma after_chunk_keeps_absent (data : bytes) (env : chunk_env) (w : world) :
  ck_rm_raw env = true -> ck_rm_wav env = true ->
  (forall q : path, fs w !! q = None -> fs (after_chunk data env w) !! q = None)
  /\ fs (after_chunk data env w) !! temp_file (ck_id env) = None
  /\ fs (after_chunk data env w) !! wav_file (ck_id env) = None.
Proof.
  intros Hraw Hwav. unfold after_chunk.
  set (w0 := snd (print (R := unit) (LogWsReceived (length data)) w)).
  destruct (process_chunk_spec data env w0) as (c & w' & E & _ & _ & G1 & G2).
  unfold gone_or_warned in G1, G2.
  assert (Ht : fs (snd (process_chunk data env w0)) !! temp_file (ck_id env)
               = None).
  { rewrite E. cbn [snd]. destruct G1 as [G1 | [G1 _]]; [exact G1 |].
    congruence. }
  assert (Hw : fs (snd (process_chunk data env w0)) !! wav_file (ck_id env)
               = None).
  { rewrite E. cbn [snd]. destruct G2 as [G2 | [G2 _]]; [exact G2 |].
    congruence. }
  split_and!; auto.
  intros q Hq.
  destruct (decide (q = temp_file (ck_id env))) as [-> | N1]; [exact Ht |].
  destruct (decide (q = wav_file (ck_id env))) as [-> | N2]; [exact Hw |].
  rewrite process_chunk_frame by assumption. exact Hq.
Qed.

Lemma run_chunks_keeps_absent (chunks : list (bytes * chunk_env)) :
  Forall (fun c => ck_rm_raw (snd c) = true /\ ck_rm_wav (snd c) = true) chunks ->
  forall w : world,
    (forall q : path, fs w !! q = None -> fs (run_chunks chunks w) !! q = None)
    /\ Forall (fun c => fs (run_chunks chunks w) !! temp_file (ck_id (snd c)) = None
                        /\ fs (run_chunks chunks w) !! wav_file (ck_id (snd c)) = None)
              chunks.
Proof.
  induction 1 as [| [data env] chunks [Hraw Hwav] _ IH]; intros w.
  - split; [auto | constructor].
  - cbn [run_chunks fold_left fst snd] in *.
    fold (run_chunks chunks (after_chunk data env w)).
    destruct (after_chunk_keeps_absent data env w Hraw Hwav) as (K & T & W).
    destruct (IH (after_chunk data env w)) as (K' & F').
    split; [auto |].
    constructor; [split; auto | exact F'].
Qed.

(** X9: when every removal succeeds, a session leaves no file behind: at
    its end none of the raw files and containers of its chunks exists, and
    no path that was absent when the session began exists, however the
    chunks fared and however the session ended. *)
Theorem session_leaves_no_files (chunks : list (bytes * chunk_env))
    (ending : option exn) (w : world) :
  Forall (fun c => ck_rm_raw (snd c) = true /\ ck_rm_wav (snd c) = true) chunks ->
  (forall q : path,
      fs w !! q = None ->
      fs (snd (websocket_endpoint (session_events chunks ending) w)) !! q = None)
  /\ Forall
       (fun c =>
          fs (snd (websocket_endpoint (session_events chunks ending) w))
            !! temp_file (ck_id (snd c)) = None
          /\ fs (snd (websocket_endpoint (session_events chunks ending) w))
               !! wav_file (ck_id (snd c)) = None)
       chunks.
Proof.
  intros Hrm. rewrite websocket_endpoint_session_run. cbn [snd].
  destruct (run_chunks_keeps_absent chunks Hrm
              (snd (print (R := unit) LogWsConnected w))) as (K & F).
  destruct ending; unfold print in *; cbn [snd fs] in *; split; assumption.
Qed.

Lemma session_leaves_no_files_witness :
  Forall (fun c => ck_rm_raw (snd c) = true /\ ck_rm_wav (snd c) = true)
         [(pcm 2000, spoken_chunk); (pcm 10, failing_chunk)]
  /\ Forall
       (fun c =>
          fs (snd (websocket_endpoint
                     (session_events
                        [(pcm 2000, spoken_chunk); (pcm 10, failing_chunk)]
                        (Some WebSocketDisconnect)) initial_world))
            !! temp_file (ck_id (snd c)) = None
          /\ fs (snd (websocket_endpoint
                        (session_events
                           [(pcm 2000, spoken_chunk); (pcm 10, failing_chunk)]
                           (Some WebSocketDisconnect)) initial_world))
               !! wav_file (ck_id (snd c)) = None)
       [(pcm 2000, spoken_chunk); (pcm 10, failing_chunk)].
Proof.
  assert (H : Forall (fun c => ck_rm_raw (snd c) = true
                               /\ ck_rm_wav (snd c) = true)
                     [(pcm 2000, spoken_chunk); (pcm 10, failing_chunk)])
    by (repeat constructor).
  split; [exact H |].
  apply (session_leaves_no_files
           [(pcm 2000, spoken_chunk); (pcm 10, failing_chunk)]
           (Some WebSocketDisconnect) initial_world H).
Defined.

(** X10: the step of a chunk does not depend on what came before: from any
    two worlds it ends the same way, hands the same text to [send_text],
    delivers the same, and invokes the model the same; files left from
    earlier chunks, even under the same names, make no difference. *)
Theorem chunk_independent_of_history (data : bytes) (env : chunk_env)
    (w1 w2 : world) :
  fst (process_chunk data env w1) = fst (process_chunk data env w2)
  /\ exists msgs got calls,
       sent (snd (process_chunk data env w1)) = sent w1 ++ msgs
       /\ sent (snd (process_chunk data env w2)) = sent w2 ++ msgs
       /\ delivered (snd (process_chunk data env w1)) = delivered w1 ++ got
       /\ delivered (snd (process_chunk data env w2)) = delivered w2 ++ got
       /\ whisper_calls (snd (process_chunk data env w1))
          = whisper_calls w1 ++ calls
       /\ whisper_calls (snd (process_chunk data env w2))
          = whisper_calls w2 ++ calls.
Proof.
  split.
  - rewrite !process_chunk_unfold. cbn [fst]. now rewrite !chunk_try_ctl.
  - destruct (process_chunk_spec data env w1)
      as (c1 & v1 & E1 & _ & (_ & W1 & S1 & D1 & _) & _).
    destruct (process_chunk_spec data env w2)
      as (c2 & v2 & E2 & _ & (_ & W2 & S2 & D2 & _) & _).
    rewrite E1, E2. cbn [snd]. do 3 eexists. split_and!; eassumption.
Qed.

(** ** Requests *)

Lemma upload_try_response (env : upload_env) (w : world) :
  fst (upload_try env w) = Exit (upload_response env)
  /\ (forall e, upload_fault env = Some e ->
                In (LogError (exn_str e)) (log (snd (upload_try env w)))).
Proof.
  unfold upload_try, upload_response, upload_fault.
  unfold try_except, bind, lift, ret, raise, exit_, when, write_file,
    path_exists, run_ffmpeg, model_transcribe, print.
  destruct (up_save env) as [| | e1 [b1 |]]; run_step.
  1: destruct (up_ffmpeg env) as [e2 | rc err [out |]]; run_step;
     try (destruct (rc =? 0)%Z; cbn [negb]; run_step;
          try (destruct (up_whisper env) as [segments | e3]; run_step)).
  all: cbn [negb ret]; run_step; split; [reflexivity |].
  all: intros e [= <-]; rewrite ?in_app_iff; cbn [In exn_str]; auto.
Qed.

Lemma transcribe_audio_response (env : upload_env) (w : world) :
  fst (transcribe_audio env w) = Exit (upload_response env).
Proof.
  rewrite transcribe_audio_unfold. cbn [fst].
  apply upload_try_response.
Qed.

Lemma transcribe_audio_calls (env : upload_env) (w : world) :
  ffmpeg_calls (snd (transcribe_audio env w))
  = ffmpeg_calls w
    ++ (if saved env
        then [(input_path (up_file_id env), audio_path (up_file_id env))]
        else [])
  /\ whisper_calls (snd (transcribe_audio env w))
     = whisper_calls w
       ++ (if reaches_model env then [audio_path (up_file_id env)] else []).
Proof.
  destruct (transcribe_audio_spec env w) as (r & w' & E & _ & Hout & _).
  rewrite E. cbn [snd]. unfold upload_outcome in Hout.
  unfold saved, reaches_model.
  destruct (up_save env).
  - destruct Hout as [Hff Hout]. split; [exact Hff |].
    destruct (up_ffmpeg env) as [e | rc err out].
    + destruct Hout as [_ ->]. now rewrite app_nil_r.
    + destruct (rc =? 0)%Z.
      * now destruct Hout as [-> _].
      * destruct Hout as (_ & -> & _). now rewrite app_nil_r.
  - destruct Hout as (_ & -> & ->). now rewrite !app_nil_r.
  - destruct Hout as (_ & -> & ->). now rewrite !app_nil_r.
Qed.

(** X11: an exception at any stage of a request (the save, the start of the
    transcoder, its exit status, the model) does not leave the handler: it
    is printed and the response is the error tagged 500 whose payload is
    the text of that exception. *)
Theorem upload_fault_surfaced (env : upload_env) (w : world) (e : exn) :
  upload_fault env = Some e ->
  fst (transcribe_audio env w) = Exit (ErrorBody500 (exn_str e))
  /\ In (LogError (exn_str e)) (log (snd (transcribe_audio env w))).
Proof.
  intros Hfault. split.
  - rewrite transcribe_audio_response. unfold upload_response.
    now rewrite Hfault.
  - rewrite transcribe_audio_unfold. cbn [snd].
    destruct (cleanup_two (R := response) LogWarnRemove
                (input_path (up_file_id env)) (up_rm_input env)
                (audio_path (up_file_id env)) (up_rm_audio env)
                (snd (upload_try env w)))
      as (w2 & x2 & Efin & _ & _ & _ & _ & Hl2 & _).
    rewrite Efin. cbn [snd]. rewrite Hl2. apply in_or_app. left.
    now apply upload_try_response.
Qed.

Lemma upload_fault_surfaced_witness :
  upload_fault model_fault_upload
  = Some (RuntimeError (of_ascii "CUDA out of memory"))
  /\ fst (transcribe_audio model_fault_upload initial_world)
     = Exit (ErrorBody500 (of_ascii "CUDA out of memory")).
Proof.
  split; [reflexivity |].
  apply (upload_fault_surfaced model_fault_upload initial_world
           (RuntimeError (of_ascii "CUDA out of memory")) eq_refl).
Defined.

(** X12: in a request the transcoder is invoked once exactly when the
    upload was saved, and the model once, on the transcoded path, exactly
    when in addition the transcoder exits with status 0; whether the
    transcoder wrote its destination file is not looked at. *)
Theorem upload_invocations (env : upload_env) (w : world) :
  ffmpeg_calls (snd (transcribe_audio env w))
  = ffmpeg_calls w
    ++ (if saved env
        then [(input_path (up_file_id env), audio_path (up_file_id env))]
        else [])
  /\ whisper_calls (snd (transcribe_audio env w))
     = whisper_calls w
       ++ (if reaches_model env then [audio_path (up_file_id env)] else [])
  /\ (reaches_model env = true <->
      up_save env = Written
      /\ exists stderr output, up_ffmpeg env = Completed 0 stderr output).
Proof.
  destruct (transcribe_audio_calls env w) as [Hff Hwh].
  split_and!; [exact Hff | exact Hwh |].
  unfold reaches_model.
  destruct (up_save env); [| split; [discriminate | intros [H _]; discriminate H] ..].
  destruct (up_ffmpeg env) as [e | rc err out].
  - split; [discriminate | intros (_ & ? & ? & H); discriminate H].
  - split.
    + intros H. apply Z.eqb_eq in H. subst rc. eauto.
    + intros (_ & ? & ? & H). injection H as -> _ _. reflexivity.
Qed.

(** X13: the response of a request is decided by the upload and the
    answers of the collaborators alone: what is in the directory or in the
    log beforehand, files under the request's own names included, does not
    change it. *)
Theorem upload_response_independent (env : upload_env) (w1 w2 : world) :
  fst (transcribe_audio env w1) = fst (transcribe_audio env w2).
Proof. now rewrite !transcribe_audio_response. Qed.

(** ** Blank text *)

Lemma nonblank_lstrip (s : str) : nonblank (lstrip s) = nonblank s.
Proof.
  induction s as [| c s IH]; [reflexivity |].
  cbn [lstrip]. destruct (py_isspace c) eqn:Hc.
  - rewrite IH. cbn [nonblank existsb]. now rewrite Hc.
  - reflexivity.
Qed.

Lemma lstrip_blank (s : str) : nonblank s = false -> lstrip s = [].
Proof.
  induction s as [| c s IH]; [reflexivity |].
  cbn [nonblank existsb lstrip]. intros H.
  apply orb_false_iff in H. destruct H as [Hc Hs].
  apply negb_false_iff in Hc. rewrite Hc. now apply IH.
Qed.

Lemma nonblank_rev (s : str) : nonblank (rev s) = nonblank s.
Proof.
  unfold nonblank. induction s as [| c s IH]; [reflexivity |].
  cbn [rev existsb]. rewrite existsb_app, IH. cbn [existsb].
  rewrite orb_false_r. apply orb_comm.
Qed.

(** [text.strip()] is true exactly when the text holds a code point that
    is not whitespace. *)
Lemma truthy_strip (s : str) : truthy (strip s) = nonblank s.
Proof.
  destruct (nonblank s) eqn:Hs.
  - assert (H : nonblank (strip s) = true).
    { unfold strip, rstrip.
      now rewrite nonblank_rev, nonblank_lstrip, nonblank_rev, nonblank_lstrip. }
    destruct (strip s); [discriminate H | reflexivity].
  - unfold strip, rstrip. now rewrite (lstrip_blank s Hs).
Qed.

(** X14: for a chunk that passes the gate and that the model answers, the
    joined text is handed to [send_text] exactly when it holds a code point
    that is not whitespace, and then as it is, with its leading and
    trailing whitespace; a text of whitespace only, or no segment at all,
    sends nothing. *)
Theorem text_sent_iff_nonblank (data : bytes) (env : chunk_env) (w : world)
    (segments : list str) :
  passes_gate data env = true ->
  ck_whisper env = Ok segments ->
  sent (snd (process_chunk data env w))
  = sent w
    ++ (if nonblank (join (of_ascii " ") segments)
        then [join (of_ascii " ") segments]
        else []).
Proof.
  intros Hpass Hmodel.
  destruct (process_chunk_spec data env w)
    as (c & w' & E & _ & (_ & _ & Hsent & _) & _).
  rewrite E. cbn [snd]. rewrite Hsent.
  unfold emits, yields_text, chunk_text. rewrite Hpass, Hmodel. cbn [andb].
  now rewrite truthy_strip.
Qed.

Lemma text_sent_iff_nonblank_witness :
  passes_gate (pcm 2000) spoken_chunk = true
  /\ sent (snd (process_chunk (pcm 2000) spoken_chunk initial_world))
     = sent initial_world ++ [of_ascii " good  morning"].
Proof.
  split; [vm_compute; reflexivity |].
  apply (text_sent_iff_nonblank (pcm 2000) spoken_chunk initial_world
           [of_ascii " good"; of_ascii " morning"]).
  - vm_compute. reflexivity.
  - reflexivity.
Defined.

(** X15: the two handlers treat a blank transcription differently: for the
    same segments, joined to a text of whitespace only, the one-shot
    handler answers with that text as the transcription, while the
    streaming handler, having invoked the model, sends nothing. *)
Theorem blank_text_asymmetry (request : upload_env) (data : bytes)
    (env : chunk_env) (w : world) (segments : list str) :
  nonblank (join (of_ascii " ") segments) = false ->
  reaches_model request = true ->
  up_whisper request = Ok segments ->
  passes_gate data env = true ->
  ck_whisper env = Ok segments ->
  fst (transcribe_audio request w)
  = Exit (Transcription (join (of_ascii " ") segments))
  /\ sent (snd (process_chunk data env w)) = sent w
  /\ whisper_calls (snd (process_chunk data env w))
     = whisper_calls w ++ [wav_file (ck_id env)].
Proof.
  intros Hblank Hreach Hup Hpass Hck. split_and!.
  - rewrite transcribe_audio_response.
    unfold upload_response, upload_fault. unfold reaches_model in Hreach.
    destruct (up_save request); try discriminate Hreach.
    destruct (up_ffmpeg request) as [| rc err out]; try discriminate Hreach.
    rewrite Hreach, Hup. reflexivity.
  - destruct (process_chunk_spec data env w)
      as (c & w' & E & _ & (_ & _ & Hsent & _) & _).
    rewrite E. cbn [snd]. rewrite Hsent.
    unfold emits, yields_text, chunk_text. rewrite Hpass, Hck. cbn [andb].
    rewrite truthy_strip, Hblank. apply app_nil_r.
  - destruct (process_chunk_spec data env w)
      as (c & w' & E & _ & (_ & Hwh & _) & _).
    rewrite E. cbn [snd]. now rewrite Hwh, Hpass.
Qed.

Lemma blank_text_asymmetry_witness :
  nonblank (join (of_ascii " ") [of_ascii " "]) = false
  /\ fst (transcribe_audio blank_upload initial_world)
     = Exit (Transcription (of_ascii " "))
  /\ sent (snd (process_chunk (pcm 2000) silent_chunk initial_world))
     = sent initial_world.
Proof.
  split; [reflexivity |].
  destruct (blank_text_asymmetry blank_upload (pcm 2000) silent_chunk
              initial_world [of_ascii " "]) as (H1 & H2 & _);
    try (vm_compute; reflexivity).
  split; [exact H1 | exact H2].
Defined.

(** ** The threshold in bytes received *)

Lemma pad_even_adds (data : bytes) :
  length (pad_even data) = (length data + length data mod 2)%nat.
Proof.
  unfold pad_even.
  pose proof (Nat.mod_upper_bound (length data) 2) as Hub.
  destruct (Nat.eqb_spec (length data mod 2) 0) as [E | E]; cbn [negb].
  - lia.
  - rewrite length_app. cbn [length]. lia.
Qed.

Lemma quality_gate_raw (data : bytes) :
  quality_gate (assembled_size data) = (955 <=? length data)%nat.
Proof.
  pose proof (quality_gate_iff (assembled_size data)) as Hq.
  unfold assembled_size in *. rewrite pad_even_adds in *.
  pose proof (Nat.div_mod_eq (length data) 2) as Hdm.
  pose proof (Nat.mod_upper_bound (length data) 2) as Hub.
  destruct (Nat.leb_spec 955 (length data)) as [H | H].
  - apply Hq. lia.
  - destruct (quality_gate _); [| reflexivity].
    assert (1000 <= 44 + (length data + length data mod 2))%nat
      by now apply Hq.
    lia.
Qed.

(** X16: counted in bytes received, the threshold is 955: the container of
    a chunk has 44 bytes more than the chunk, and one more when its length
    is odd, so the model is invoked for a chunk exactly when its files are
    written and it has at least 955 bytes; a shorter chunk, the empty one
    included, never reaches the model, whatever the collaborators do. *)
Theorem raw_chunk_threshold (data : bytes) (env : chunk_env) (w : world) :
  assembled_size data = (44 + length data + length data mod 2)%nat
  /\ whisper_calls (snd (process_chunk data env w))
     = whisper_calls w
       ++ (if reaches_gate env && (955 <=? length data)%nat
           then [wav_file (ck_id env)]
           else []).
Proof.
  split.
  - unfold assembled_size. rewrite pad_even_adds. lia.
  - destruct (process_chunk_spec data env w)
      as (c & w' & E & _ & (_ & Hwh & _) & _).
    rewrite E. cbn [snd]. rewrite Hwh.
    unfold passes_gate. now rewrite quality_gate_raw.
Qed.

(** ** The trailing byte of an odd chunk, and the range of the samples *)

Lemma samples_of_app (k : nat) :
  forall a b : bytes,
    length a = (2 * k)%nat -> samples_of (a ++ b) = samples_of a ++ samples_of b.
Proof.
  induction k as [| k IH]; intros a b Hlen.
  - destruct a; [reflexivity | discriminate].
  - destruct a as [| lo [| hi rest]]; simpl in Hlen; try lia.
    cbn [app samples_of]. f_equal. apply IH. lia.
Qed.

Lemma int16_of_le_range (lo hi : byte) :
  (-32768 <= int16_of_le lo hi <= 32767)%Z.
Proof.
  pose proof (Byte.to_N_bounded lo). pose proof (Byte.to_N_bounded hi).
  unfold int16_of_le. cbv zeta.
  destruct (Z.ltb_spec (Z.of_N (Byte.to_N lo) + 256 * Z.of_N (Byte.to_N hi))
              32768); lia.
Qed.

Lemma samples_of_range (n : nat) :
  forall data : bytes,
    (length data <= n)%nat ->
    Forall (fun s => (-32768 <= s <= 32767)%Z) (samples_of data).
Proof.
  induction n as [| n IH]; intros data Hlen.
  - destruct data; [constructor | cbn in Hlen; lia].
  - destruct data as [| lo [| hi rest]]; try constructor.
    + apply int16_of_le_range.
    + apply IH. cbn [length] in Hlen. lia.
Qed.

(** X17: the byte appended to a chunk of odd length completes its last
    byte to a sample: the samples read are those of the chunk without its
    last byte, and then one sample whose value is that last byte, between 0
    and 255 (its high byte is the zero appended). *)
Theorem odd_chunk_last_sample (B : bytes) (b : byte) :
  Nat.Even (length B) ->
  frombuffer_int16 (pad_even (B ++ [b]))
  = Ok (samples_of B ++ [Z.of_N (Byte.to_N b)])
  /\ (0 <= Z.of_N (Byte.to_N b) <= 255)%Z.
Proof.
  intros [k Hk]. split.
  - assert (Hodd : (length (B ++ [b]) mod 2 =? 0)%nat = false).
    { apply Nat.eqb_neq. rewrite length_app. cbn [length]. rewrite Hk.
      replace (2 * k + 1)%nat with (1 + k * 2)%nat by lia.
      rewrite Nat.Div0.mod_add. discriminate. }
    unfold frombuffer_int16. rewrite pad_even_length. cbn [Nat.eqb].
    unfold pad_even. rewrite Hodd. cbn [negb].
    rewrite <- app_assoc. cbn [app].
    rewrite (samples_of_app k) by exact Hk. cbn [samples_of].
    do 3 f_equal.
    pose proof (Byte.to_N_bounded b) as Hb.
    unfold int16_of_le. cbv zeta. cbn [Byte.to_N].
    destruct (Z.ltb_spec (Z.of_N (Byte.to_N b) + 256 * Z.of_N 0) 32768); lia.
  - pose proof (Byte.to_N_bounded b). lia.
Qed.

Lemma odd_chunk_last_sample_witness :
  Nat.Even (length [x10; x20])
  /\ frombuffer_int16 (pad_even ([x10; x20] ++ [xff]))
     = Ok (samples_of [x10; x20] ++ [255%Z]).
Proof.
  assert (H : Nat.Even (length [x10; x20])) by (exists 1%nat; reflexivity).
  split; [exact H |].
  apply (odd_chunk_last_sample [x10; x20] xff H).
Defined.

(** X18: the samples read from a chunk are signed 16-bit values, one for
    every two bytes of the padded chunk. *)
Theorem samples_are_int16 (data : bytes) :
  exists audio_data,
    frombuffer_int16 (pad_even data) = Ok audio_data
    /\ Forall (fun s => (-32768 <= s <= 32767)%Z) audio_data
    /\ length audio_data = ((length data + 1) / 2)%nat.
Proof.
  exists (samples_of (pad_even data)).
  unfold frombuffer_int16. rewrite pad_even_length. cbn [Nat.eqb].
  split_and!.
  - reflexivity.
  - now apply (samples_of_range (length (pad_even data))).
  - pose proof (Nat.div_mod_eq (length (pad_even data)) 2) as Hdm.
    rewrite pad_even_length in Hdm.
    rewrite (samples_length (length (pad_even data) / 2)) by lia.
    rewrite pad_even_adds.
    pose proof (Nat.div_mod_eq (length data) 2) as H1.
    pose proof (Nat.mod_upper_bound (length data) 2) as H2.
    pose proof (Nat.div_mod_eq (length data + length data mod 2) 2) as H3.
    pose proof (Nat.mod_upper_bound (length data + length data mod 2) 2) as H4.
    pose proof (Nat.div_mod_eq (length data + 1) 2) as H5.
    pose proof (Nat.mod_upper_bound (length data + 1) 2) as H6.
    lia.
Qed.

(** ** The joined text *)




